(** * Distributed fine-tuning script [classifier/train_on_azure.py]

    A shallow embedding of the orchestration script: argument parsing, the
    set-up of optimizer and loss, the [train] / [test] / checkpoint epoch
    loops and the Horovod collective used to average metrics.

    Conventions of the embedding.
    - Python [int] is [Z]; Python and torch floating-point scalars are exact
      rationals [Q] (rounding, infinities and NaN are outside the model).
    - Tensors, inputs and network outputs are abstract types; the network's
      forward pass, the per-sample negative log-likelihood, the arg-max and
      the SGD update are parameters of the development.
    - A worker is a program in a small monad with exceptions and one
      communication effect, [Allreduce]; a cluster runs the workers'
      programs in lockstep and answers each collective with the mean. *)

From Stdlib Require Import Ascii String QArith Qfield Lia.
From stdpp Require Import gmap strings list pretty.

Open Scope Z_scope.

(** ** Python built-ins used by the script *)

Module Py.

(** [range(a, b)]: the integers [a <= i < b], increasing. *)
Definition range (a b : Z) : list Z :=
  (fun i => a + Z.of_nat i) <$> seq 0 (Z.to_nat (b - a)).

(** [str.startswith] / [str.endswith] for a one-character separator. *)
Definition starts_with_sep (s : string) : bool :=
  match s with
  | String c _ => Ascii.eqb c "/"%char
  | EmptyString => false
  end.

Fixpoint ends_with_sep (s : string) : bool :=
  match s with
  | EmptyString => false
  | String c EmptyString => Ascii.eqb c "/"%char
  | String _ s' => ends_with_sep s'
  end.

(** [os.path.join(a, b)] (posixpath): an absolute [b] discards [a]; no
    separator is added after an empty [a] or one that already ends in
    ["/"]. *)
Definition path_join (a b : string) : string :=
  if starts_with_sep b then b
  else if (String.length a =? 0)%nat || ends_with_sep a then a +:+ b
  else a +:+ "/" +:+ b.

(** ['%0<w>d' % n]: decimal, left-padded with zeros to width [w]. *)
Fixpoint zeros (k : nat) : string :=
  match k with
  | O => EmptyString
  | S k' => String "0"%char (zeros k')
  end.

Definition zfill (w : nat) (n : nat) : string :=
  let s := pretty n in zeros (w - String.length s) +:+ s.

(** [int(s)] restricted to an optional sign followed by decimal digits. *)
Definition digit_of (c : ascii) : option Z :=
  let n := Ascii.nat_of_ascii c in
  if ((48 <=? n) && (n <=? 57))%nat then Some (Z.of_nat (n - 48)) else None.

Fixpoint digits_acc (s : string) (acc : Z) : option Z :=
  match s with
  | EmptyString => Some acc
  | String c s' =>
      match digit_of c with
      | Some d => digits_acc s' (10 * acc + d)
      | None => None
      end
  end.

Definition parse_digits (s : string) : option Z :=
  match s with
  | EmptyString => None
  | _ => digits_acc s 0
  end.

Definition parse_int (s : string) : option Z :=
  match s with
  | String "-"%char s' => Z.opp <$> parse_digits s'
  | String "+"%char s' => parse_digits s'
  | _ => parse_digits s
  end.

(** [float(s)] restricted to an optional sign, decimal digits and at most
    one decimal point, with at least one digit; the value is exact. *)
Fixpoint split_dot (s : string) : string * option string :=
  match s with
  | EmptyString => (EmptyString, None)
  | String "."%char s' => (EmptyString, Some s')
  | String c s' => let '(l, r) := split_dot s' in (String c l, r)
  end.

Definition parse_ufloat (s : string) : option Q :=
  let '(l, r) := split_dot s in
  let r := default EmptyString r in
  match parse_digits (l +:+ r) with
  | Some n => Some (Qmake n (Z.to_pos (10 ^ Z.of_nat (String.length r))))
  | None => None
  end.

Definition parse_float (s : string) : option Q :=
  match s with
  | String "-"%char s' => Qopp <$> parse_ufloat s'
  | String "+"%char s' => parse_ufloat s'
  | _ => parse_ufloat s
  end.

End Py.

(** ** The exceptions the script can end with *)

Inductive exn : Type :=
  | SystemExit          (* argparse rejects the command line *)
  | TypeError           (* os.path.join on None *)
  | ValueError          (* DataLoader with a non-positive batch size *)
  | ZeroDivisionError   (* division or modulo by zero *)
  | CudaError           (* .cuda() without a CUDA device *)
  | DeviceMismatch      (* loss weights and network output on different devices *)
  | IndexError.         (* target class outside the weight vector *)

#[global] Instance exn_eq_dec : EqDecision exn.
Proof. solve_decision. Defined.

(** ** Configuration loader (lines 22-44) *)

Record Args : Type := mkArgs {
  data_folder : option string;
  output_dir : string;
  batch_size : Z;
  test_batch_size : Z;
  epochs : Z;
  lr : Q;
  momentum : Q;
  no_cuda : bool;
  seed : Z;
  log_interval : Z;
  fp16_allreduce : bool
}.

(** The [default=] of every [add_argument]; [--data-folder] has none, so
    argparse stores [None]. *)
Definition default_args : Args :=
  {| data_folder := None;
     output_dir := "./outputs";
     batch_size := 64;
     test_batch_size := 1000;
     epochs := 10;
     lr := 1 # 100;
     momentum := 5 # 10;
     no_cuda := false;
     seed := 42;
     log_interval := 10;
     fp16_allreduce := false |}.

Definition set_data_folder (v : string) (a : Args) : Args :=
  mkArgs (Some v) (output_dir a) (batch_size a) (test_batch_size a) (epochs a)
         (lr a) (momentum a) (no_cuda a) (seed a) (log_interval a) (fp16_allreduce a).
Definition set_output_dir (v : string) (a : Args) : Args :=
  mkArgs (data_folder a) v (batch_size a) (test_batch_size a) (epochs a)
         (lr a) (momentum a) (no_cuda a) (seed a) (log_interval a) (fp16_allreduce a).
Definition set_batch_size (v : Z) (a : Args) : Args :=
  mkArgs (data_folder a) (output_dir a) v (test_batch_size a) (epochs a)
         (lr a) (momentum a) (no_cuda a) (seed a) (log_interval a) (fp16_allreduce a).
Definition set_test_batch_size (v : Z) (a : Args) : Args :=
  mkArgs (data_folder a) (output_dir a) (batch_size a) v (epochs a)
         (lr a) (momentum a) (no_cuda a) (seed a) (log_interval a) (fp16_allreduce a).
Definition set_epochs (v : Z) (a : Args) : Args :=
  mkArgs (data_folder a) (output_dir a) (batch_size a) (test_batch_size a) v
         (lr a) (momentum a) (no_cuda a) (seed a) (log_interval a) (fp16_allreduce a).
Definition set_lr (v : Q) (a : Args) : Args :=
  mkArgs (data_folder a) (output_dir a) (batch_size a) (test_batch_size a) (epochs a)
         v (momentum a) (no_cuda a) (seed a) (log_interval a) (fp16_allreduce a).
Definition set_momentum (v : Q) (a : Args) : Args :=
  mkArgs (data_folder a) (output_dir a) (batch_size a) (test_batch_size a) (epochs a)
         (lr a) v (no_cuda a) (seed a) (log_interval a) (fp16_allreduce a).
Definition set_no_cuda (a : Args) : Args :=
  mkArgs (data_folder a) (output_dir a) (batch_size a) (test_batch_size a) (epochs a)
         (lr a) (momentum a) true (seed a) (log_interval a) (fp16_allreduce a).
Definition set_seed (v : Z) (a : Args) : Args :=
  mkArgs (data_folder a) (output_dir a) (batch_size a) (test_batch_size a) (epochs a)
         (lr a) (momentum a) (no_cuda a) v (log_interval a) (fp16_allreduce a).
Definition set_log_interval (v : Z) (a : Args) : Args :=
  mkArgs (data_folder a) (output_dir a) (batch_size a) (test_batch_size a) (epochs a)
         (lr a) (momentum a) (no_cuda a) (seed a) v (fp16_allreduce a).
Definition set_fp16_allreduce (a : Args) : Args :=
  mkArgs (data_folder a) (output_dir a) (batch_size a) (test_batch_size a) (epochs a)
         (lr a) (momentum a) (no_cuda a) (seed a) (log_interval a) true.

(** One option that takes a value: [type=] conversion, then the store into
    its [dest]. [None] is argparse's error exit. *)
Definition store_value (flag value : string) (a : Args) : option Args :=
  if String.eqb flag "--data-folder" then Some (set_data_folder value a)
  else if String.eqb flag "--output_dir" then Some (set_output_dir value a)
  else if String.eqb flag "--batch-size" then
    (fun v => set_batch_size v a) <$> Py.parse_int value
  else if String.eqb flag "--test-batch-size" then
    (fun v => set_test_batch_size v a) <$> Py.parse_int value
  else if String.eqb flag "--epochs" then
    (fun v => set_epochs v a) <$> Py.parse_int value
  else if String.eqb flag "--lr" then
    (fun v => set_lr v a) <$> Py.parse_float value
  else if String.eqb flag "--momentum" then
    (fun v => set_momentum v a) <$> Py.parse_float value
  else if String.eqb flag "--seed" then
    (fun v => set_seed v a) <$> Py.parse_int value
  else if String.eqb flag "--log-interval" then
    (fun v => set_log_interval v a) <$> Py.parse_int value
  else None.

(** [parser.parse_args()] on the command line [argv] (without the program
    name), for the spelling [--flag value] and the two [store_true]
    switches. No option is [required=True]. *)
Fixpoint parse_from (argv : list string) (a : Args) : option Args :=
  match argv with
  | [] => Some a
  | flag :: rest =>
      if String.eqb flag "--no-cuda" then parse_from rest (set_no_cuda a)
      else if String.eqb flag "--fp16-allreduce" then parse_from rest (set_fp16_allreduce a)
      else
        match rest with
        | value :: rest' =>
            match store_value flag value a with
            | Some a' => parse_from rest' a'
            | None => None
            end
        | [] => None
        end
  end.

Definition parse_args (argv : list string) : option Args :=
  parse_from argv default_args.

(** ** Worker programs

    A worker either returns, raises, or blocks in [hvd.allreduce] until the
    runtime hands back the reduced value. *)

Inductive prog (A : Type) : Type :=
  | Ret (a : A)
  | Raise (e : exn)
  | Allreduce (name : string) (v : Q) (k : Q -> prog A).

Arguments Ret {A} a.
Arguments Raise {A} e.
Arguments Allreduce {A} name v k.

Fixpoint bind {A B : Type} (p : prog A) (f : A -> prog B) : prog B :=
  match p with
  | Ret a => f a
  | Raise e => Raise e
  | Allreduce n v k => Allreduce n v (fun x => bind (k x) f)
  end.

#[global] Instance prog_ret : MRet prog := @Ret.
#[global] Instance prog_bind : MBind prog := fun A B f p => bind p f.

Inductive outcome (A : Type) : Type :=
  | Done (a : A)
  | Failed (e : exn).

Arguments Done {A} a.
Arguments Failed {A} e.

(** One worker seen from the inside: the [i]-th collective it takes part in
    is answered by [h i name v], whatever the other workers contributed. *)
Fixpoint answer {A : Type} (h : nat -> string -> Q -> Q) (i : nat) (p : prog A) : outcome A :=
  match p with
  | Ret a => Done a
  | Raise e => Failed e
  | Allreduce n v k => answer h (S i) (k (h i n v))
  end.

(** ** Horovod's averaging all-reduce over a cluster *)

Definition Qsum (l : list Q) : Q := foldr Qplus 0%Q l.

Definition mean (l : list Q) : Q := (Qsum l / inject_Z (Z.of_nat (length l)))%Q.

(** A worker blocked in the collective called [name]. *)
Definition at_allreduce {A : Type} (name : string) (p : prog A) : option (Q * (Q -> prog A)) :=
  match p with
  | Allreduce n v k => if String.eqb n name then Some (v, k) else None
  | _ => None
  end.

Definition finished {A : Type} (p : prog A) : option (outcome A) :=
  match p with
  | Ret a => Some (Done a)
  | Raise e => Some (Failed e)
  | Allreduce _ _ _ => None
  end.

(** Lockstep execution of rank 0's program [p0] with the programs of the
    other ranks. Every worker must reach the same named collective; each then
    receives the mean of all contributions. [None] is a job that never ends:
    a worker waits in a collective that some other worker does not join. *)
Fixpoint run_cluster {A : Type} (p0 : prog A) (others : list (prog A)) : option (list (outcome A)) :=
  match p0 with
  | Ret a => (fun os => Done a :: os) <$> mapM finished others
  | Raise e => (fun os => Failed e :: os) <$> mapM finished others
  | Allreduce n v k =>
      match mapM (at_allreduce n) others with
      | Some vks =>
          let avg := mean (v :: (fst <$> vks)) in
          run_cluster (k avg) ((fun vk => snd vk avg) <$> vks)
      | None => None
      end
  end.

(** ** Time-stamped checkpoint names (lines 77-83) *)

Record datetime : Type := mkDatetime {
  year : nat; month : nat; day : nat; hour : nat; minute : nat
}.

(** [str(now.date())] is the ISO form [YYYY-MM-DD]. *)
Definition date_str (now : datetime) : string :=
  Py.zfill 4 (year now) +:+ "-" +:+ Py.zfill 2 (month now) +:+ "-" +:+ Py.zfill 2 (day now).

(** [time()], given the value [datetime.datetime.now()] returned. *)
Definition time (now : datetime) : string :=
  date_str now +:+ "_" +:+ pretty (hour now) +:+ "-" +:+ pretty (minute now).

Definition N_FINETUNE_EPOCHS : Z := 2.
Definition CKPT : string := "xception_train".

(** What a worker does to the outside, in order. *)
Inductive event : Type :=
  | ESetEpoch (epoch : Z)                            (* train_sampler.set_epoch *)
  | EStep (updated : list string)                    (* optimizer.step: parameters it changed *)
  | EPrintTrain (epoch : Z) (seen total : Z) (pct loss : Q)
  | ELog (key : string) (v : Q)                      (* run.log *)
  | EPrintTest (loss pct : Q)
  | ESave (path : string).                           (* torch.save *)

(** [DataLoader] batching: consecutive groups of [n] samples, the last one
    possibly shorter ([drop_last] is off). *)
Fixpoint chunks_aux {A : Type} (fuel n : nat) (l : list A) : list (list A) :=
  match fuel with
  | O => []
  | S fuel' =>
      match l with
      | [] => []
      | _ => take n l :: chunks_aux fuel' n (drop n l)
      end
  end.

Definition batches {A : Type} (n : nat) (l : list A) : list (list A) :=
  chunks_aux (length l) n l.

(** ** The script *)

Section Script.

(** Tensor data and the network are the framework's. *)
Context {tensor input logits : Type}.

Definition sample : Type := input * nat.

(** A model parameter: its name in [state_dict], whether it belongs to
    [model.features], its [requires_grad] flag and its value. *)
Record param : Type := mkParam {
  pname : string;
  in_features : bool;
  requires_grad : bool;
  pvalue : tensor
}.

Definition model : Type := list param.

(** [model(data)] for one sample, in train ([true]) or eval mode. *)
Variable forward : bool -> model -> input -> logits.
(** Cross-entropy of one sample: minus the log-probability of the target. *)
Variable nll : logits -> nat -> Q.
(** [output.max(1)[1]]: the predicted class. *)
Variable argmax : logits -> nat.
(** The value [optimizer.step()] gives a trainable parameter, after the
    backward pass on this batch and the gradient all-reduce; the position
    in the run stands for the optimizer's and the other workers' state. *)
Variable sgd : Z -> nat -> model -> list sample -> param -> tensor.

(** What the run is given from outside. *)
Record env : Type := mkEnv {
  hvd_size : nat;                       (* hvd.size() *)
  hvd_rank : nat;                       (* hvd.rank() *)
  cuda_is_available : bool;             (* torch.cuda.is_available() *)
  classw : list Q;                      (* datasets.classw *)
  train_shard : Z -> list sample;       (* train_sampler's samples after set_epoch *)
  test_shard : list sample;             (* test_sampler's samples *)
  clock : nat -> datetime;              (* the n-th datetime.now() *)
  scratch : model                       (* Xception() after load_scratch(PATH) and the broadcast *)
}.

Inductive compression_t : Type := Fp16 | NoCompression.

(** Everything lines 44-109 leave behind for the loops. *)
Record session : Type := mkSession {
  args : Args;
  args_cuda : bool;                     (* args.cuda *)
  data_dir : string;                    (* data_folder, line 60 *)
  weights_path : string;                (* PATH, line 75 *)
  train_bs : nat;
  test_bs : nat;
  opt_lr : Q;                           (* lr of optim.SGD *)
  opt_momentum : Q;
  compression : compression_t;
  class_weights : list Q;
  class_weights_on_cuda : bool
}.

Record world : Type := mkWorld {
  net : model;
  training : bool;                      (* model.train() / model.eval() *)
  sampler_epoch : Z;
  ticks : nat;                          (* clock readings so far *)
  fs : gmap string (list (string * tensor));   (* files under the output directory *)
  trace : list event
}.

Definition state_dict (m : model) : list (string * tensor) :=
  (fun p => (pname p, pvalue p)) <$> m.

Definition emit (evs : list event) (w : world) : world :=
  mkWorld (net w) (training w) (sampler_epoch w) (ticks w) (fs w) (trace w ++ evs).

Definition set_training (b : bool) (w : world) : world :=
  mkWorld (net w) b (sampler_epoch w) (ticks w) (fs w) (trace w).

Definition set_net (m : model) (w : world) : world :=
  mkWorld m (training w) (sampler_epoch w) (ticks w) (fs w) (trace w).

Definition set_epoch (e : Z) (w : world) : world :=
  mkWorld (net w) (training w) e (ticks w) (fs w) (trace w ++ [ESetEpoch e]).

(** *** Set-up (lines 44-109) *)

Definition setup (E : env) (argv : list string) : prog session :=
  match parse_args argv with
  | None => Raise SystemExit
  | Some a =>
      let cuda := negb (no_cuda a) && cuda_is_available E in
      match data_folder a with
      | None => Raise TypeError
      | Some folder =>
          let dir := Py.path_join folder "data_wf" in
          if batch_size a <=? 0 then Raise ValueError
          else if test_batch_size a <=? 0 then Raise ValueError
          else
            let path := Py.path_join (Py.path_join folder "weights") "xception_imagenet.pth" in
            let lr_sgd := (lr a * inject_Z (Z.of_nat (hvd_size E)))%Q in
            let comp := if fp16_allreduce a then Fp16 else NoCompression in
            (* class_weights = torch.Tensor(datasets.classw).cuda() *)
            if cuda_is_available E then
              Ret (mkSession a cuda dir path
                     (Z.to_nat (batch_size a)) (Z.to_nat (test_batch_size a))
                     lr_sgd (momentum a) comp (classw E) true)
            else Raise CudaError
      end
  end.

Definition init_world (E : env) : world :=
  mkWorld (scratch E) true 0 0%nat ∅ [].

Section Loops.

Variable E : env.
Variable cfg : session.

(** *** Loss functions (lines 108-109) *)

(** Weight and weighted loss of one sample; the target must index the
    weight vector. *)
Definition sample_loss (ot : logits * nat) : option (Q * Q) :=
  match class_weights cfg !! snd ot with
  | Some wt => Some (wt, (wt * nll (fst ot) (snd ot))%Q)
  | None => None
  end.

(** The network output is where the model and the data are; the weights
    are where [class_weights] was put. *)
Definition same_device : bool :=
  bool_decide (args_cuda cfg = class_weights_on_cuda cfg).

(** [criterion]: weighted mean over the batch. When the weights of the
    batch sum to zero torch returns NaN; the rational quotient is 0 there. *)
Definition criterion (outs : list (logits * nat)) : prog Q :=
  if same_device then
    match mapM sample_loss outs with
    | Some wl => Ret (Qsum (snd <$> wl) / Qsum (fst <$> wl))%Q
    | None => Raise IndexError
    end
  else Raise DeviceMismatch.

(** [val_criterion]: [size_average=False], the weighted sum. *)
Definition val_criterion (outs : list (logits * nat)) : prog Q :=
  if same_device then
    match mapM sample_loss outs with
    | Some wl => Ret (Qsum (snd <$> wl))
    | None => Raise IndexError
    end
  else Raise DeviceMismatch.

(** *** [train] (lines 111-129) *)

Definition trainable_names (m : model) : list string :=
  pname <$> filter (fun p => requires_grad p = true) m.

(** [optimizer.step()]: parameters without gradient are skipped. *)
Definition optimizer_step (epoch : Z) (batch_idx : nat) (batch : list sample) (m : model) : model :=
  (fun p =>
     if requires_grad p
     then mkParam (pname p) (in_features p) true (sgd epoch batch_idx m batch p)
     else p) <$> m.

Definition train_batch (epoch : Z) (n_batches : nat) (batch_idx : nat)
    (batch : list sample) (w : world) : prog world :=
  let outs := (fun s => (forward (training w) (net w) (fst s), snd s)) <$> batch in
  loss ← criterion outs;
  let w := emit [EStep (trainable_names (net w))]
             (set_net (optimizer_step epoch batch_idx batch (net w)) w) in
  if log_interval (args cfg) =? 0 then Raise ZeroDivisionError
  else if Z.of_nat batch_idx mod log_interval (args cfg) =? 0 then
    mret (emit [EPrintTrain epoch
                  (Z.of_nat batch_idx * Z.of_nat (length batch))
                  (Z.of_nat (length (train_shard E epoch)))
                  (100 * inject_Z (Z.of_nat batch_idx) / inject_Z (Z.of_nat n_batches))%Q
                  loss;
                ELog "loss" loss] w)
  else mret w.

Fixpoint train_loop (epoch : Z) (n_batches : nat) (batch_idx : nat)
    (bs : list (list sample)) (w : world) : prog world :=
  match bs with
  | [] => mret w
  | b :: bs' =>
      w' ← train_batch epoch n_batches batch_idx b w;
      train_loop epoch n_batches (S batch_idx) bs' w'
  end.

Definition train (epoch : Z) (w : world) : prog world :=
  let w := set_epoch epoch (set_training true w) in
  let bs := batches (train_bs cfg) (train_shard E epoch) in
  train_loop epoch (length bs) 0%nat bs w.

(** *** [metric_average] (lines 132-135) *)

Definition metric_average (val : Q) (name : string) : prog Q :=
  Allreduce name val (fun avg_tensor => Ret avg_tensor).

(** *** [test] (lines 138-163) *)

Definition correct (outs : list (logits * nat)) : nat :=
  length (filter (fun ot => argmax (fst ot) = snd ot) outs).

Fixpoint test_loop (w : world) (bs : list (list sample)) (test_loss test_accuracy : Q)
    : prog (Q * Q) :=
  match bs with
  | [] => mret (test_loss, test_accuracy)
  | b :: bs' =>
      let outs := (fun s => (forward (training w) (net w) (fst s), snd s)) <$> b in
      l ← val_criterion outs;
      test_loop w bs' (test_loss + l)%Q
                (test_accuracy + inject_Z (Z.of_nat (correct outs)))%Q
  end.

Definition test (w : world) : prog world :=
  let w := set_training false w in
  '(test_loss, test_accuracy) ← test_loop w (batches (test_bs cfg) (test_shard E)) 0%Q 0%Q;
  let n := length (test_shard E) in      (* len(test_sampler) *)
  if (n =? 0)%nat then Raise ZeroDivisionError
  else
    let test_loss := (test_loss / inject_Z (Z.of_nat n))%Q in
    let test_accuracy := (test_accuracy / inject_Z (Z.of_nat n))%Q in
    test_loss ← metric_average test_loss "avg_loss";
    test_accuracy ← metric_average test_accuracy "avg_accuracy";
    let w := emit [ELog "val_loss" test_loss; ELog "val_acc" test_accuracy] w in
    if (hvd_rank E =? 0)%nat
    then mret (emit [EPrintTest test_loss (100 * test_accuracy)%Q] w)
    else mret w.

(** *** Checkpoint and the two epoch loops (lines 166-177) *)

Definition checkpoint_path (now : datetime) : string :=
  Py.path_join (output_dir (args cfg)) (CKPT +:+ "_" +:+ time now +:+ ".pth").

(** [torch.save(model.state_dict(), path)]: the file is created or
    replaced. *)
Definition save (w : world) : world :=
  let path := checkpoint_path (clock E (ticks w)) in
  mkWorld (net w) (training w) (sampler_epoch w) (S (ticks w))
          (<[path := state_dict (net w)]> (fs w)) (trace w ++ [ESave path]).

Definition epoch_body (epoch : Z) (w : world) : prog world :=
  w ← train epoch w;
  w ← test w;
  mret (save w).

Fixpoint for_epochs (es : list Z) (w : world) : prog world :=
  match es with
  | [] => mret w
  | e :: es' => w' ← epoch_body e w; for_epochs es' w'
  end.

(** [for param in model.features.parameters(): param.requires_grad = True] *)
Definition unfreeze (w : world) : world :=
  set_net ((fun p =>
              if in_features p
              then mkParam (pname p) true true (pvalue p)
              else p) <$> net w) w.

Definition warm_up_epochs : list Z := Py.range 1 N_FINETUNE_EPOCHS.

Definition fine_tune_epochs : list Z := Py.range N_FINETUNE_EPOCHS (epochs (args cfg) + 1).

Definition epoch_loops (w : world) : prog world :=
  w ← for_epochs warm_up_epochs w;
  for_epochs fine_tune_epochs (unfreeze w).

End Loops.

(** The whole script on one worker. *)
Definition main (E : env) (argv : list string) : prog world :=
  cfg ← setup E argv;
  epoch_loops E cfg (init_world E).

End Script.



(** ** Projections of a trace *)

Definition epochs_visited (t : list event) : list Z :=
  omap (fun ev => match ev with ESetEpoch e => Some e | _ => None end) t.

Definition steps (t : list event) : list (list string) :=
  omap (fun ev => match ev with EStep u => Some u | _ => None end) t.

Definition saves (t : list event) : list string :=
  omap (fun ev => match ev with ESave p => Some p | _ => None end) t.

Definition val_logs (t : list event) : list (string * Q) :=
  omap (fun ev => match ev with
                  | ELog k v => if String.eqb k "loss" then None else Some (k, v)
                  | _ => None
                  end) t.

Definition test_prints (t : list event) : list (Q * Q) :=
  omap (fun ev => match ev with EPrintTest l a => Some (l, a) | _ => None end) t.

(** The losses [train] sent to the experiment tracker. *)
Definition loss_logs (t : list event) : list Q :=
  omap (fun ev => match ev with
                  | ELog k v => if String.eqb k "loss" then Some v else None
                  | _ => None
                  end) t.

(** Strings of decimal digits. *)
Fixpoint all_digits (s : string) : bool :=
  match s with
  | EmptyString => true
  | String c s' => bool_decide (is_Some (Py.digit_of c)) && all_digits s'
  end.

(** * Vocabulary of the properties *)

(** A worker that offers [l] and then [a] to the two metric collectives and
    ends with [k] of the two answers. *)
Definition two_step {A : Type} (l a : Q) (k : Q -> Q -> A) : prog A :=
  Allreduce "avg_loss" l (fun x => Allreduce "avg_accuracy" a (fun y => Ret (k x y))).

Section Vocabulary.

Context {tensor input logits : Type}.
Variable forward : bool -> @model tensor -> input -> logits.
Variable nll : logits -> nat -> Q.
Variable argmax : logits -> nat.
Variable sgd : Z -> nat -> @model tensor -> list (@sample input) -> @param tensor -> tensor.
Variable E : @env tensor input.
Variable cfg : session.

Abbreviation world := (@world tensor).

(** The trainability of a model: which parameter has which flag. *)
Definition flags (m : @model tensor) : list (string * bool * bool) :=
  (fun p => (pname p, in_features p, requires_grad p)) <$> m.

Definition names_of_flags (fl : list (string * bool * bool)) : list string :=
  (fun x => fst (fst x)) <$> filter (fun x => snd x = true) fl.

(** What [train] may print or log with [names] trainable. *)
Definition train_event (names : list string) (ev : event) : Prop :=
  match ev with
  | EStep u => u = names
  | EPrintTrain _ _ _ _ _ => True
  | ELog k _ => k = "loss"
  | _ => False
  end.

(** [w'] is [w] after training steps: same flags, clock and files. *)
Definition trained (w w' : world) (t : list event) : Prop :=
  trace w' = trace w ++ t /\
  Forall (train_event (trainable_names (net w))) t /\
  flags (net w') = flags (net w) /\
  ticks w' = ticks w /\ fs w' = fs w /\
  training w' = training w /\ sampler_epoch w' = sampler_epoch w.

(** The network's outputs, paired with the targets, on a list of samples. *)
Definition outs_of (w : world) (b : list (@sample input)) : list (logits * nat) :=
  (fun s => (forward (training w) (net w) (fst s), snd s)) <$> b.

(** What [test] does with the two averaged scalars. *)
Definition report (l a : Q) (w : world) : world :=
  let w' := emit [ELog "val_loss" l; ELog "val_acc" a] w in
  if (hvd_rank E =? 0)%nat then emit [EPrintTest l (100 * a)%Q] w' else w'.

(** [l] and [a] are this worker's mean loss and accuracy over its shard. *)
Definition local_means (w : world) (l a : Q) : Prop :=
  let outs := outs_of (set_training false w) (test_shard E) in
  let n := inject_Z (Z.of_nat (length (test_shard E))) in
  test_shard E <> [] /\
  exists wl,
    Forall2 (fun ot x => sample_loss nll cfg ot = Some x) outs wl /\
    (l == Qsum (snd <$> wl) / n)%Q /\
    (a == inject_Z (Z.of_nat (correct argmax outs)) / n)%Q.

(** Events between [set_epoch] and the checkpoint of one epoch. *)
Definition inner_event (names : list string) (ev : event) : Prop :=
  match ev with
  | EStep u => u = names
  | EPrintTrain _ _ _ _ _ | ELog _ _ | EPrintTest _ _ => True
  | ESetEpoch _ | ESave _ => False
  end.

(** The effect of one completed epoch. *)
Definition epoch_done (e : Z) (w w' : world) (t : list event) : Prop :=
  let path := checkpoint_path cfg (clock E (ticks w)) in
  trace w' = trace w ++ ESetEpoch e :: t ++ [ESave path] /\
  Forall (inner_event (trainable_names (net w))) t /\
  flags (net w') = flags (net w) /\
  ticks w' = S (ticks w) /\
  fs w' = <[path := state_dict (net w')]> (fs w).

(** The effect of a completed loop over the epochs [es]. *)
Definition loop_done (es : list Z) (w w' : world) (t : list event) : Prop :=
  trace w' = trace w ++ t /\
  epochs_visited t = es /\
  Forall (fun u => u = trainable_names (net w)) (steps t) /\
  saves t = (fun n => checkpoint_path cfg (clock E n)) <$> seq (ticks w) (length es) /\
  flags (net w') = flags (net w) /\
  ticks w' = (ticks w + length es)%nat /\
  dom (fs w') = dom (fs w) ∪ list_to_set (saves t).

(** Only the classifier head is trainable. *)
Definition frozen_feature (m : @model tensor) : Prop :=
  Forall (fun x : string * bool * bool => snd x = negb (snd (fst x))) (flags m).

(** Every parameter is trainable. *)
Definition fully_trainable (m : @model tensor) : Prop :=
  Forall (fun x : string * bool * bool => snd x = true) (flags m).

Definition all_names (m : @model tensor) : list string :=
  (fun x => fst (fst x)) <$> flags m.

Definition head_names (m : @model tensor) : list string :=
  (fun x => fst (fst x)) <$> filter (fun x => snd (fst x) = false) (flags m).

(** The parameters an optimizer step leaves alone, with their values. *)
Definition frozen_params (m : @model tensor) : list (@param tensor) :=
  filter (fun p => requires_grad p = false) m.

(** The parameters of [model.features], with their values. *)
Definition feature_params (m : @model tensor) : list (@param tensor) :=
  filter (fun p => in_features p = true) m.

End Vocabulary.

Section ClusterVocabulary.

Context {tensor input logits : Type}.
Variable forward : bool -> @model tensor -> input -> logits.
Variable nll : logits -> nat -> Q.
Variable argmax : logits -> nat.

(** A worker about to evaluate: what it is given, its configuration and
    its state. *)
Definition worker : Type := @env tensor input * session * @world tensor.

Definition eval_prog (wk : worker) : prog (@world tensor) :=
  test forward nll argmax (fst (fst wk)) (snd (fst wk)) (snd wk).

(** The state in which worker [wk] leaves [test] when the collectives
    answer [l] and [a]. *)
Definition eval_end (wk : worker) (l a : Q) : @world tensor :=
  report (fst (fst wk)) l a (set_training false (snd wk)).

Definition failed {A : Type} (o : outcome A) : Prop := exists e, o = Failed e.

(** Worker [wk] completed [test] with outcome [o]: it logged [l] and [a]
    as [val_loss] and [val_acc], printed the summary if and only if it is
    rank 0, and kept its parameters. *)
Definition reported (wk : worker) (o : outcome (@world tensor)) (l a : Q) : Prop :=
  exists w',
    o = Done w' /\
    trace w' = trace (snd wk) ++ [ELog "val_loss" l; ELog "val_acc" a]
                 ++ (if (hvd_rank (fst (fst wk)) =? 0)%nat
                     then [EPrintTest l (100 * a)%Q] else []) /\
    net w' = net (snd wk).

End ClusterVocabulary.

(** * A small deployment, for examples *)

Module Demo.

(** A toy network: inputs and outputs are class numbers, the prediction
    is the input itself, a miss costs 1 and a hit 0; a step adds 1 to
    every trainable parameter. *)
Definition forward (mode : bool) (m : @model Z) (x : nat) : nat := x.
Definition nll (o t : nat) : Q := if (o =? t)%nat then 0%Q else 1%Q.
Definition argmax (o : nat) : nat := o.
Definition sgd (e : Z) (i : nat) (m : @model Z) (b : list (@sample nat)) (p : @param Z) : Z :=
  pvalue p + 1.

Definition at_minute (m : nat) : datetime := mkDatetime 2020 1 5 3 m.
Definition same_minute (n : nat) : datetime := at_minute 7.

Definition pretrained : @model Z :=
  [mkParam "features.conv1.weight" true false 0; mkParam "fc.weight" false true 0].

(** Worker [rank] of [size], with or without a CUDA device. *)
Definition E (rank size : nat) (cuda : bool) (clk : nat -> datetime) : @env Z nat :=
  mkEnv size rank cuda [1%Q; 2%Q]
    (fun _ => [(0, 0); (1, 1); (1, 0)]%nat)
    (if (rank =? 0)%nat then [(0, 0); (1, 0)]%nat else [(1, 1); (0, 0)]%nat)
    clk pretrained.

Definition argv2 : list string := ["--data-folder"; "/mnt"; "--epochs"; "2"].

(** The configuration [setup] produces for [argv2] on a CUDA machine. *)
Definition cfg (size : nat) : session :=
  mkSession (set_epochs 2 (set_data_folder "/mnt" default_args)) true
    "/mnt/data_wf" "/mnt/weights/xception_imagenet.pth" 64 1000
    ((1 # 100) * inject_Z (Z.of_nat size))%Q (5 # 10)%Q NoCompression [1%Q; 2%Q] true.

(** The whole script on a cluster of one. *)
Definition run (clk : nat -> datetime) (argv : list string) :=
  run_cluster (main forward nll argmax sgd (E 0 1 true clk) argv) [].

Definition worker0 : @worker Z nat := (E 0 2 true at_minute, cfg 2, init_world (E 0 2 true at_minute)).
Definition worker1 : @worker Z nat := (E 1 2 true at_minute, cfg 2, init_world (E 1 2 true at_minute)).

(** A worker without validation samples, and a configuration with
    [--log-interval 0]. *)
Definition E_no_val : @env Z nat :=
  mkEnv 1 0 true [1%Q; 2%Q] (fun _ => [(0, 0); (1, 1); (1, 0)]%nat) [] at_minute pretrained.

Definition cfg_log0 : session :=
  mkSession (set_log_interval 0 (set_data_folder "/mnt" default_args)) true
    "/mnt/data_wf" "/mnt/weights/xception_imagenet.pth" 64 1000
    ((1 # 100) * inject_Z 1)%Q (5 # 10)%Q NoCompression [1%Q; 2%Q] true.

End Demo.

(** * Properties *)

(** ** Programs and their runs *)

Lemma bind_unfold {A B : Type} (p : prog A) (f : A -> prog B) :
  (p ≫= f) = bind p f.
Proof. reflexivity. Qed.

Lemma answer_bind {A B : Type} (h : nat -> string -> Q -> Q) (p : prog A) (f : A -> prog B) :
  forall i b, answer h i (bind p f) = Done b ->
    exists a j, answer h i p = Done a /\ answer h j (f a) = Done b.
Proof.
  induction p as [a | e | n v k IH]; intros i b Hrun; simpl in *.
  - exists a, i. split; [reflexivity | assumption].
  - discriminate.
  - apply IH in Hrun. exact Hrun.
Qed.

(** A cluster of one worker answers every collective with the mean of the
    single contribution. *)
Lemma run_cluster_single {A : Type} (p : prog A) (i : nat) :
  run_cluster p [] = Some [answer (fun _ _ v => mean [v]) i p].
Proof.
  revert i. induction p as [a | e | n v k IH]; intros i; simpl; try reflexivity.
  apply IH.
Qed.

(** ** Sums and means of rationals *)

Lemma Qsum_app (l1 l2 : list Q) : (Qsum (l1 ++ l2) == Qsum l1 + Qsum l2)%Q.
Proof.
  induction l1 as [| x l1 IH]; simpl.
  - ring.
  - rewrite IH. ring.
Qed.

Lemma Qsum_nonneg (l : list Q) : Forall (fun x => (0 <= x)%Q) l -> (0 <= Qsum l)%Q.
Proof.
  induction 1 as [| x l Hx _ IH]; simpl.
  - apply Qle_refl.
  - replace 0%Q with (0 + 0)%Q by reflexivity. apply Qplus_le_compat; assumption.
Qed.

Lemma Qsum_le_length (l : list Q) :
  Forall (fun x => (x <= 1)%Q) l -> (Qsum l <= inject_Z (Z.of_nat (length l)))%Q.
Proof.
  induction 1 as [| x l Hx _ IH]; simpl length; simpl Qsum.
  - apply Qle_refl.
  - rewrite Nat2Z.inj_succ, <- Z.add_1_l, inject_Z_plus.
    apply Qplus_le_compat; assumption.
Qed.


Lemma inject_nat_pos (n : nat) : (0 < n)%nat -> (0 < inject_Z (Z.of_nat n))%Q.
Proof.
  intros Hn. replace 0%Q with (inject_Z 0) by reflexivity.
  rewrite <- Zlt_Qlt. lia.
Qed.

Lemma mean_nonneg (l : list Q) : Forall (fun x => (0 <= x)%Q) l -> (0 <= mean l)%Q.
Proof.
  intros Hl. unfold mean. destruct l as [| x l].
  - simpl. apply Qle_refl.
  - apply Qle_shift_div_l.
    + apply inject_nat_pos. simpl. lia.
    + rewrite Qmult_0_l. apply Qsum_nonneg. assumption.
Qed.

Lemma mean_le_1 (l : list Q) : Forall (fun x => (x <= 1)%Q) l -> (mean l <= 1)%Q.
Proof.
  intros Hl. unfold mean. destruct l as [| x l].
  - simpl. discriminate.
  - apply Qle_shift_div_r.
    + apply inject_nat_pos. simpl. lia.
    + rewrite Qmult_1_l. apply Qsum_le_length. assumption.
Qed.


(** ** Batching keeps every sample, once and in order *)

Lemma chunks_aux_concat {A : Type} (n : nat) :
  (0 < n)%nat -> forall fuel (l : list A), (length l <= fuel)%nat ->
  concat (chunks_aux fuel n l) = l.
Proof.
  intros Hn. induction fuel as [| fuel IH]; intros l Hlen; simpl.
  - destruct l; [reflexivity | simpl in Hlen; lia].
  - destruct l as [| x l]; [reflexivity |].
    simpl concat. rewrite IH.
    + apply take_drop.
    + rewrite length_drop. simpl in *. lia.
Qed.

Lemma batches_concat {A : Type} (n : nat) (l : list A) :
  (0 < n)%nat -> concat (batches n l) = l.
Proof. intros Hn. apply chunks_aux_concat; [assumption | lia]. Qed.

Section ScriptFacts.

Context {tensor input logits : Type}.
Variable forward : bool -> @model tensor -> input -> logits.
Variable nll : logits -> nat -> Q.
Variable argmax : logits -> nat.
Variable sgd : Z -> nat -> @model tensor -> list (@sample input) -> @param tensor -> tensor.
Variable E : @env tensor input.
Variable cfg : session.

Abbreviation world := (@world tensor).
Abbreviation train_batch := (train_batch forward nll sgd E cfg).
Abbreviation train_loop := (train_loop forward nll sgd E cfg).
Abbreviation train := (train forward nll sgd E cfg).
Abbreviation test_loop := (test_loop forward nll argmax cfg).
Abbreviation test := (test forward nll argmax E cfg).
Abbreviation epoch_body := (epoch_body forward nll argmax sgd E cfg).
Abbreviation for_epochs := (for_epochs forward nll argmax sgd E cfg).
Abbreviation epoch_loops := (epoch_loops forward nll argmax sgd E cfg).
Abbreviation outs_of := (outs_of forward).
Abbreviation report := (report E).
Abbreviation local_means := (local_means forward nll argmax E cfg).
Abbreviation epoch_done := (epoch_done E cfg).
Abbreviation loop_done := (loop_done E cfg).

Lemma trainable_names_flags (m : @model tensor) :
  trainable_names m = names_of_flags (flags m).
Proof.
  unfold trainable_names, names_of_flags, flags, model in *.
  induction m as [| p m IH]; [reflexivity |].
  rewrite filter_cons, fmap_cons, filter_cons. simpl snd.
  destruct (decide (requires_grad p = true)); rewrite ?fmap_cons, IH; reflexivity.
Qed.

Lemma optimizer_step_flags (e : Z) (i : nat) (b : list sample) (m : @model tensor) :
  flags (optimizer_step sgd e i b m) = flags m.
Proof.
  unfold flags, optimizer_step. rewrite <- list_fmap_compose.
  apply list_fmap_ext. intros _ p _. simpl.
  destruct (requires_grad p) eqn:Hp; simpl; rewrite ?Hp; reflexivity.
Qed.

(** A frozen parameter keeps its value through an optimizer step. *)
Lemma update_trainable_frozen (g : @param tensor -> tensor) (m : list (@param tensor)) :
  filter (fun p => requires_grad p = false)
    ((fun p => if requires_grad p
               then mkParam (pname p) (in_features p) true (g p) else p) <$> m)
  = filter (fun p => requires_grad p = false) m.
Proof.
  induction m as [| p m IH]; [reflexivity |].
  rewrite fmap_cons, filter_cons, (filter_cons _ p m).
  destruct (requires_grad p) eqn:Hp; simpl; rewrite ?Hp.
  - destruct (decide (true = false)); [discriminate | exact IH].
  - destruct (decide (false = false)); [| congruence]. rewrite IH. reflexivity.
Qed.

Lemma optimizer_step_frozen (e : Z) (i : nat) (b : list sample) (m : @model tensor) :
  filter (fun p => requires_grad p = false) (optimizer_step sgd e i b m)
  = filter (fun p => requires_grad p = false) m.
Proof. apply update_trainable_frozen. Qed.

(** *** [train] *)

Lemma criterion_cases (outs : list (logits * nat)) :
  (exists q, criterion nll cfg outs = Ret q) \/ (exists e, criterion nll cfg outs = Raise e).
Proof.
  unfold criterion. destruct (same_device cfg); [| right; eauto].
  destruct (mapM _ outs); [left | right]; eauto.
Qed.

Lemma train_batch_cases (e : Z) (nb i : nat) (b : list sample) (w : world) :
  (exists w' t, train_batch e nb i b w = Ret w' /\ trained w w' t) \/
  (exists x, train_batch e nb i b w = Raise x).
Proof.
  unfold train_batch.
  destruct (criterion_cases
              ((fun s => (forward (training w) (net w) (fst s), snd s)) <$> b))
    as [[q Hq] | [x Hx]].
  2:{ right. exists x. rewrite Hx. reflexivity. }
  rewrite Hq, bind_unfold. simpl bind.
  destruct (log_interval (args cfg) =? 0); [right; eauto |].
  destruct (_ mod _ =? 0); left; eexists; eexists; (split; [reflexivity |]);
    unfold trained; simpl; rewrite <- ?app_assoc; simpl;
    (split; [reflexivity |]);
    (split; [repeat constructor |]);
    (split; [apply optimizer_step_flags |]); tauto.
Qed.

Lemma trained_trans (w1 w2 w3 : world) (t1 t2 : list event) :
  trained w1 w2 t1 -> trained w2 w3 t2 -> trained w1 w3 (t1 ++ t2).
Proof.
  intros (Ht1 & Hev1 & Hfl1 & Hk1 & Hfs1 & Hm1 & He1) (Ht2 & Hev2 & Hfl2 & Hk2 & Hfs2 & Hm2 & He2).
  unfold trained. rewrite Ht2, Ht1, app_assoc.
  split; [reflexivity |]. split.
  - apply Forall_app. split; [assumption |].
    rewrite trainable_names_flags, Hfl1, <- trainable_names_flags in Hev2. assumption.
  - repeat split; congruence.
Qed.

Lemma train_loop_cases (e : Z) (nb : nat) (bs : list (list sample)) :
  forall (i : nat) (w : world),
  (exists w' t, train_loop e nb i bs w = Ret w' /\ trained w w' t) \/
  (exists x, train_loop e nb i bs w = Raise x).
Proof.
  induction bs as [| b bs IH]; intros i w; simpl.
  - left. exists w, []. split; [reflexivity |].
    unfold trained. rewrite app_nil_r. repeat split. constructor.
  - destruct (train_batch_cases e nb i b w) as [(w1 & t1 & Hb & Htr1) | [x Hx]].
    2:{ right. exists x. rewrite Hx. reflexivity. }
    rewrite Hb, bind_unfold. simpl bind.
    destruct (IH (S i) w1) as [(w2 & t2 & Hl & Htr2) | [x Hx]].
    + left. exists w2, (t1 ++ t2). split; [assumption |].
      eapply trained_trans; eassumption.
    + right. eauto.
Qed.

(** [train] ends without any collective of its own: it returns the world
    after [set_epoch] and the training steps, or raises. *)
Lemma train_cases (e : Z) (w : world) :
  (exists w' t, train e w = Ret w' /\
     trace w' = trace w ++ ESetEpoch e :: t /\
     Forall (train_event (trainable_names (net w))) t /\
     flags (net w') = flags (net w) /\ ticks w' = ticks w /\ fs w' = fs w) \/
  (exists x, train e w = Raise x).
Proof.
  unfold train.
  destruct (train_loop_cases e
              (length (batches (train_bs cfg) (train_shard E e))) 
              (batches (train_bs cfg) (train_shard E e)) 0
              (set_epoch e (set_training true w)))
    as [(w' & t & Hl & Ht & Hev & Hfl & Hk & Hfs & _) | [x Hx]].
  - left. exists w', t. split; [assumption |]. simpl in *.
    rewrite Ht, <- app_assoc. repeat split; assumption.
  - right. eauto.
Qed.

(** *** [test] *)

Lemma correct_app (o1 o2 : list (logits * nat)) :
  correct argmax (o1 ++ o2) = (correct argmax o1 + correct argmax o2)%nat.
Proof. unfold correct. rewrite filter_app, length_app. reflexivity. Qed.

Lemma correct_le (o : list (logits * nat)) : (correct argmax o <= length o)%nat.
Proof. unfold correct. apply length_filter. Qed.

(** The local pass: it raises, or it has added to the two accumulators the
    weighted losses and the number of hits of every sample of every batch. *)
Lemma test_loop_cases (w : world) (bs : list (list sample)) :
  forall L0 A0 : Q,
  (exists L A wl,
      test_loop w bs L0 A0 = Ret (L, A) /\
      Forall2 (fun ot x => sample_loss nll cfg ot = Some x) (outs_of w (concat bs)) wl /\
      (L == L0 + Qsum (snd <$> wl))%Q /\
      (A == A0 + inject_Z (Z.of_nat (correct argmax (outs_of w (concat bs)))))%Q) \/
  (exists e, test_loop w bs L0 A0 = Raise e).
Proof.
  induction bs as [| b bs IH]; intros L0 A0; simpl.
  - left. exists L0, A0, []. split; [reflexivity |]. split; [constructor |].
    split; [change (L0 == L0 + 0)%Q | change (A0 == A0 + 0)%Q]; ring.
  - unfold val_criterion. destruct (same_device cfg); [| right; eauto].
    destruct (mapM _ _) as [wl1 |] eqn:Hm; [| right; eauto].
    apply mapM_Some in Hm. rewrite bind_unfold. simpl bind.
    fold (outs_of w b).
    destruct (IH (L0 + Qsum (snd <$> wl1))%Q
                 (A0 + inject_Z (Z.of_nat (correct argmax (outs_of w b))))%Q)
      as [(L & A & wl2 & Hrun & Hwl & HL & HA) | [e He]]; [left | right; eauto].
    exists L, A, (wl1 ++ wl2). split; [exact Hrun |].
    unfold outs_of in *. rewrite fmap_app. split; [apply Forall2_app; assumption |].
    split.
    + rewrite HL, fmap_app, Qsum_app. ring.
    + rewrite HA, correct_app, Nat2Z.inj_add, inject_Z_plus. ring.
Qed.

(** [test] raises before any communication, or it takes part in exactly
    two collectives and then reports. *)
Lemma test_shape (w : world) :
  (exists l a,
      test w = Allreduce "avg_loss" l (fun x =>
               Allreduce "avg_accuracy" a (fun y =>
               Ret (report x y (set_training false w))))) \/
  (exists e, test w = Raise e).
Proof.
  unfold test.
  destruct (test_loop_cases (set_training false w)
              (batches (test_bs cfg) (test_shard E)) 0%Q 0%Q)
    as [(L & A & wl & Hrun & _) | [e He]].
  2:{ right. exists e. rewrite He. reflexivity. }
  rewrite Hrun, bind_unfold. simpl bind.
  destruct (length (test_shard E) =? 0)%nat; [right; eauto | left].
  eexists; eexists.
  unfold report; destruct (hvd_rank E =? 0)%nat; reflexivity.
Qed.

(** [test] raises before any communication, or it offers its two local
    means to the two collectives, in this order, and then reports. *)
Lemma test_cases (w : world) :
  (0 < test_bs cfg)%nat ->
  (exists l a,
      test w = Allreduce "avg_loss" l (fun x =>
               Allreduce "avg_accuracy" a (fun y =>
               Ret (report x y (set_training false w)))) /\
      local_means w l a) \/
  (exists e, test w = Raise e).
Proof.
  intros Hbs. unfold test.
  destruct (test_loop_cases (set_training false w)
              (batches (test_bs cfg) (test_shard E)) 0%Q 0%Q)
    as [(L & A & wl & Hrun & Hwl & HL & HA) | [e He]].
  2:{ right. exists e. rewrite He. reflexivity. }
  rewrite Hrun, bind_unfold. simpl bind.
  rewrite batches_concat in Hwl, HA by assumption.
  destruct (length (test_shard E) =? 0)%nat eqn:Hn; [right; eauto | left].
  apply Nat.eqb_neq in Hn.
  exists (L / inject_Z (Z.of_nat (length (test_shard E))))%Q,
         (A / inject_Z (Z.of_nat (length (test_shard E))))%Q.
  split; [unfold report; destruct (hvd_rank E =? 0)%nat; reflexivity |].
  split; [intros Hnil; rewrite Hnil in Hn; apply Hn; reflexivity |].
  exists wl. split; [exact Hwl |].
  split; [rewrite HL | rewrite HA]; rewrite Qplus_0_l; reflexivity.
Qed.

Lemma report_net (l a : Q) (w : world) :
  net (report l a w) = net w /\ fs (report l a w) = fs w /\ ticks (report l a w) = ticks w.
Proof. unfold report. destruct (hvd_rank E =? 0)%nat; repeat split. Qed.

Lemma report_trace (l a : Q) (w : world) :
  trace (report l a w) =
    trace w ++ [ELog "val_loss" l; ELog "val_acc" a]
            ++ (if (hvd_rank E =? 0)%nat then [EPrintTest l (100 * a)%Q] else []).
Proof.
  unfold report. destruct (hvd_rank E =? 0)%nat; simpl.
  - rewrite <- app_assoc. reflexivity.
  - reflexivity.
Qed.

(** *** One epoch: train, evaluate, checkpoint *)

Lemma train_event_inner (names : list string) (ev : event) :
  train_event names ev -> inner_event names ev.
Proof. destruct ev; simpl; tauto. Qed.

Lemma inner_projections (names : list string) (t : list event) :
  Forall (inner_event names) t ->
  epochs_visited t = [] /\ saves t = [] /\ Forall (fun u => u = names) (steps t).
Proof.
  induction 1 as [| ev t Hev _ (IH1 & IH2 & IH3)]; [repeat split; constructor |].
  destruct ev; simpl in Hev; try contradiction; simpl; repeat split; try assumption.
  constructor; assumption.
Qed.

Lemma epoch_body_cases (e : Z) (w : world) :
  (exists l a k,
      epoch_body e w = Allreduce "avg_loss" l (fun x =>
                       Allreduce "avg_accuracy" a (fun y => Ret (k x y))) /\
      forall x y, exists t, epoch_done e w (k x y) t) \/
  (exists x, epoch_body e w = Raise x).
Proof.
  unfold epoch_body.
  destruct (train_cases e w)
    as [(w1 & t & Htrain & Ht & Hev & Hfl & Hk & Hfs) | [x Hx]].
  2:{ right. exists x. rewrite Hx. reflexivity. }
  rewrite Htrain, bind_unfold. simpl bind.
  destruct (test_shape w1) as [(l & a & Htest) | [x Hx]].
  2:{ right. exists x. rewrite Hx. reflexivity. }
  left. exists l, a, (fun x y => save E cfg (report x y (set_training false w1))).
  split; [rewrite Htest; reflexivity |].
  intros x y.
  exists (t ++ [ELog "val_loss" x; ELog "val_acc" y]
            ++ (if (hvd_rank E =? 0)%nat then [EPrintTest x (100 * y)%Q] else [])).
  destruct (report_net x y (set_training false w1)) as (Hn & Hf & Hc).
  unfold epoch_done. simpl. rewrite Hn, Hf, Hc, report_trace. simpl.
  rewrite Ht, Hk, Hfs, Hfl.
  split; [rewrite <- !app_assoc; reflexivity |].
  split; [| repeat split].
  apply Forall_app. split.
  - eapply Forall_impl; [exact Hev | apply train_event_inner].
  - destruct (hvd_rank E =? 0)%nat; repeat constructor.
Qed.

Lemma epoch_body_run (h : nat -> string -> Q -> Q) (i : nat) (e : Z) (w w' : world) :
  answer h i (epoch_body e w) = Done w' -> exists t, epoch_done e w w' t.
Proof.
  destruct (epoch_body_cases e w) as [(l & a & k & Hshape & Hk) | [x Hx]].
  - rewrite Hshape. simpl. intros [= <-]. apply Hk.
  - rewrite Hx. discriminate.
Qed.

(** *** A loop over epochs *)

Lemma for_epochs_run (h : nat -> string -> Q -> Q) (es : list Z) :
  forall (i : nat) (w w' : world),
  answer h i (for_epochs es w) = Done w' -> exists t, loop_done es w w' t.
Proof.
  induction es as [| e es IH]; intros i w w' Hrun; simpl in Hrun.
  - injection Hrun as Hw. subst w'. exists []. unfold loop_done. simpl.
    rewrite app_nil_r, Nat.add_0_r. repeat split; [constructor |].
    rewrite union_empty_r_L. reflexivity.
  - rewrite bind_unfold in Hrun. apply answer_bind in Hrun as (w1 & j & Hbody & Hrest).
    apply epoch_body_run in Hbody as (t1 & Ht1 & Hev & Hfl1 & Hk1 & Hfs1).
    apply IH in Hrest as (t2 & Ht2 & Hvis & Hst & Hsv & Hfl2 & Hk2 & Hdom).
    destruct (inner_projections _ _ Hev) as (Hv1 & Hs1 & Hst1).
    exists (ESetEpoch e :: t1 ++ [ESave (checkpoint_path cfg (clock E (ticks w)))] ++ t2).
    unfold loop_done.
    split; [rewrite Ht2, Ht1, <- !app_assoc; simpl; rewrite <- !app_assoc; reflexivity |].
    change (ESetEpoch e :: t1 ++ [ESave (checkpoint_path cfg (clock E (ticks w)))] ++ t2)
      with ([ESetEpoch e] ++ t1 ++ [ESave (checkpoint_path cfg (clock E (ticks w)))] ++ t2).
    unfold epochs_visited, saves, steps in *.
    rewrite !omap_app, Hv1, Hs1, Hvis, Hsv. simpl.
    split; [reflexivity |].
    split.
    { apply Forall_app. split; [exact Hst1 |].
      rewrite trainable_names_flags, Hfl1, <- trainable_names_flags in Hst. exact Hst. }
    split; [rewrite Hk1; reflexivity |].
    split; [congruence |].
    split; [lia |].
    rewrite Hdom, Hfs1, dom_insert_L, Hsv.
    rewrite (union_comm_L {[_]} (dom (fs w))), union_assoc_L. reflexivity.
Qed.

(** *** The two loops and the unfreezing between them *)

Lemma epoch_loops_run (h : nat -> string -> Q -> Q) (i : nat) (w wf : world) :
  answer h i (epoch_loops w) = Done wf ->
  exists w1 t1 t2,
    loop_done warm_up_epochs w w1 t1 /\
    loop_done (fine_tune_epochs cfg) (unfreeze w1) wf t2.
Proof.
  unfold epoch_loops. rewrite bind_unfold. intros Hrun.
  apply answer_bind in Hrun as (w1 & j & Hwarm & Hfine).
  apply for_epochs_run in Hwarm as (t1 & Ht1).
  apply for_epochs_run in Hfine as (t2 & Ht2).
  exists w1, t1, t2. split; assumption.
Qed.

Lemma frozen_names (m : @model tensor) :
  frozen_feature m -> trainable_names m = head_names m.
Proof.
  rewrite trainable_names_flags. unfold frozen_feature, head_names, names_of_flags.
  induction 1 as [| [[n f] r] fl Hx _ IH]; [reflexivity |].
  simpl in Hx. subst r. rewrite !filter_cons. simpl.
  destruct f; simpl.
  - destruct (decide (false = true)); [discriminate |].
    destruct (decide (true = false)); [discriminate | exact IH].
  - destruct (decide (true = true)); [| congruence].
    destruct (decide (false = false)); [| congruence].
    simpl. f_equal. exact IH.
Qed.

Lemma full_names (m : @model tensor) :
  fully_trainable m -> trainable_names m = all_names m.
Proof.
  rewrite trainable_names_flags. unfold fully_trainable, all_names, names_of_flags.
  induction 1 as [| x fl Hx _ IH]; [reflexivity |].
  rewrite filter_cons. destruct (decide (snd x = true)); [| contradiction].
  rewrite !fmap_cons, IH. reflexivity.
Qed.

Lemma unfreeze_flags (w : world) :
  flags (net (unfreeze w))
  = (fun x : string * bool * bool =>
       (fst (fst x), snd (fst x), if snd (fst x) then true else snd x)) <$> flags (net w).
Proof.
  unfold unfreeze, flags. simpl. rewrite <- !list_fmap_compose.
  apply list_fmap_ext. intros _ [n f r v] _. destruct f; reflexivity.
Qed.

Lemma unfreeze_full (w : world) :
  frozen_feature (net w) -> fully_trainable (net (unfreeze w)).
Proof.
  unfold frozen_feature, fully_trainable. rewrite unfreeze_flags, Forall_fmap.
  intros Hfr. eapply Forall_impl; [exact Hfr |].
  intros [[n f] r]. simpl. intros ->. destruct f; reflexivity.
Qed.

Lemma unfreeze_names (w : world) : all_names (net (unfreeze w)) = all_names (net w).
Proof.
  unfold all_names. rewrite unfreeze_flags, <- list_fmap_compose.
  apply list_fmap_ext. intros _ x _. reflexivity.
Qed.

Lemma unfreeze_rest (w : world) :
  trace (unfreeze w) = trace w /\ ticks (unfreeze w) = ticks w /\ fs (unfreeze w) = fs w.
Proof. repeat split. Qed.

End ScriptFacts.

(** ** Set-up *)

Section SetupFacts.

Context {tensor input : Type}.
Variable E : @env tensor input.

Lemma setup_cases (argv : list string) :
  (exists cfg, setup E argv = Ret cfg) \/ (exists e, setup E argv = Raise e).
Proof.
  unfold setup. destruct (parse_args argv) as [a |]; [| right; eauto].
  destruct (data_folder a); [| right; eauto].
  destruct (batch_size a <=? 0); [right; eauto |].
  destruct (test_batch_size a <=? 0); [right; eauto |].
  destruct (cuda_is_available E); [left | right]; eauto.
Qed.

(** What a configuration that passed the set-up looks like. *)
Lemma setup_ret (argv : list string) (cfg : session) :
  setup E argv = Ret cfg ->
  parse_args argv = Some (args cfg) /\
  is_Some (data_folder (args cfg)) /\
  cuda_is_available E = true /\
  class_weights_on_cuda cfg = true /\
  class_weights cfg = classw E /\
  args_cuda cfg = negb (no_cuda (args cfg)) /\
  (0 < train_bs cfg)%nat /\ (0 < test_bs cfg)%nat /\
  opt_lr cfg = (lr (args cfg) * inject_Z (Z.of_nat (hvd_size E)))%Q /\
  opt_momentum cfg = momentum (args cfg).
Proof.
  unfold setup. destruct (parse_args argv) as [a |]; [| discriminate].
  destruct (data_folder a) as [folder |] eqn:Hf; [| discriminate].
  destruct (batch_size a <=? 0) eqn:Hb; [discriminate |].
  destruct (test_batch_size a <=? 0) eqn:Ht; [discriminate |].
  destruct (cuda_is_available E) eqn:Hc; [| discriminate].
  intros [= <-]. simpl. rewrite Hf, andb_true_r.
  apply Z.leb_gt in Hb, Ht.
  repeat split; try reflexivity; try lia. eexists; reflexivity.
Qed.

End SetupFacts.

(** ** Collectives over a cluster *)

Lemma mapM_at_allreduce {A B : Type} (name : string) (f : B -> Q) (g : B -> Q -> prog A)
    (l : list B) :
  mapM (at_allreduce name) ((fun s => Allreduce name (f s) (g s)) <$> l)
  = Some ((fun s => (f s, g s)) <$> l).
Proof.
  induction l as [| s l IH]; [reflexivity |].
  rewrite !fmap_cons. simpl. rewrite String.eqb_refl. simpl.
  rewrite IH. reflexivity.
Qed.

Lemma mapM_finished_ret {A B : Type} (k : B -> A) (l : list B) :
  mapM finished ((fun s => Ret (k s)) <$> l) = Some ((fun s => Done (k s)) <$> l).
Proof.
  induction l as [| s l IH]; [reflexivity |].
  rewrite !fmap_cons. simpl. rewrite IH. reflexivity.
Qed.

(** When every worker is at the two metric collectives, each receives the
    mean of the offered losses and the mean of the offered accuracies. *)
Lemma run_cluster_two_step {A : Type} (l0 a0 : Q) (k0 : Q -> Q -> A)
    (ss : list (Q * Q * (Q -> Q -> A))) :
  run_cluster (two_step l0 a0 k0)
              ((fun s => two_step (fst (fst s)) (snd (fst s)) (snd s)) <$> ss)
  = Some (Done (k0 (mean (l0 :: ((fun s => fst (fst s)) <$> ss)))
                   (mean (a0 :: ((fun s => snd (fst s)) <$> ss))))
          :: ((fun s => Done (snd s (mean (l0 :: ((fun s => fst (fst s)) <$> ss)))
                                   (mean (a0 :: ((fun s => snd (fst s)) <$> ss)))))
              <$> ss)).
Proof.
  set (L := mean (l0 :: _)). set (M := mean (a0 :: _)).
  unfold two_step. simpl run_cluster.
  rewrite (mapM_at_allreduce "avg_loss" (fun s => fst (fst s))
             (fun s x => Allreduce "avg_accuracy" (snd (fst s)) (fun y => Ret (snd s x y)))).
  rewrite <- !list_fmap_compose. fold L.
  unfold compose. cbn [fst snd]. simpl run_cluster.
  rewrite (mapM_at_allreduce "avg_accuracy" (fun s => snd (fst s))
             (fun s y => Ret (snd s L y))).
  rewrite <- !list_fmap_compose. fold M.
  unfold compose. cbn [fst snd]. simpl run_cluster.
  rewrite (mapM_finished_ret (fun s : Q * Q * (Q -> Q -> A) => snd s L M)).
  reflexivity.
Qed.

Lemma mapM_at_allreduce_raise {A : Type} (name : string) (e : exn) (l : list (prog A)) :
  Raise e ∈ l -> mapM (at_allreduce name) l = None.
Proof.
  induction l as [| p l IH]; intros Hin.
  - apply elem_of_nil in Hin. contradiction.
  - apply elem_of_cons in Hin as [<- | Hin]; simpl.
    + reflexivity.
    + rewrite IH by exact Hin. destruct (at_allreduce name p); reflexivity.
Qed.

Section ClusterFacts.

Context {tensor input logits : Type}.
Variable forward : bool -> @model tensor -> input -> logits.
Variable nll : logits -> nat -> Q.
Variable argmax : logits -> nat.

Abbreviation eval_prog := (eval_prog forward nll argmax).

Lemma eval_prog_shape (wk : worker) :
  (exists l a, eval_prog wk = two_step l a (eval_end wk)) \/
  (exists e, eval_prog wk = Raise e).
Proof.
  destruct wk as [[E cfg] w].
  destruct (test_shape forward nll argmax E cfg w) as [(l & a & H) | [e H]].
  - left. exists l, a. exact H.
  - right. exists e. exact H.
Qed.

(** Either every worker is at the collectives, or one of them raised. *)
Lemma eval_progs_shape (wks : list worker) :
  (exists las : list (Q * Q),
      Forall2 (fun wk la => eval_prog wk = two_step (fst la) (snd la) (eval_end wk)) wks las) \/
  (exists e, Raise e ∈ eval_prog <$> wks).
Proof.
  induction wks as [| wk wks IH].
  - left. exists []. constructor.
  - destruct (eval_prog_shape wk) as [(l & a & H) | [e H]].
    + destruct IH as [[las Hlas] | [e He]].
      * left. exists ((l, a) :: las). constructor; assumption.
      * right. exists e. rewrite fmap_cons. apply list_elem_of_further. exact He.
    + right. exists e. rewrite fmap_cons, H. apply list_elem_of_here.
Qed.

Lemma finished_eval_failed (wks : list worker) (os : list (outcome (@world tensor))) :
  mapM finished (eval_prog <$> wks) = Some os -> Forall failed os.
Proof.
  intros Hm. apply mapM_Some in Hm. rewrite Forall2_fmap_l in Hm.
  induction Hm as [| wk o wks os Hfin _ IH]; constructor; [| exact IH].
  unfold compose in Hfin.
  destruct (eval_prog_shape wk) as [(l & a & H) | [e H]]; rewrite H in Hfin.
  - discriminate.
  - injection Hfin as <-. exists e. reflexivity.
Qed.

(** A completed evaluation on a cluster: every worker failed before any
    communication, or every worker ends with the same two means. *)
Lemma eval_cluster (wk0 : worker) (wks : list worker) (outs : list (outcome (@world tensor))) :
  run_cluster (eval_prog wk0) (eval_prog <$> wks) = Some outs ->
  Forall failed outs \/
  exists las : list (Q * Q),
    Forall2 (fun wk la => eval_prog wk = two_step (fst la) (snd la) (eval_end wk))
            (wk0 :: wks) las /\
    outs = (fun wk => Done (eval_end wk (mean (fst <$> las)) (mean (snd <$> las))))
             <$> wk0 :: wks.
Proof.
  intros Hrun.
  destruct (eval_prog_shape wk0) as [(l0 & a0 & H0) | [e H0]].
  2:{ left. rewrite H0 in Hrun. simpl in Hrun.
      destruct (mapM finished (eval_prog <$> wks)) as [os |] eqn:Hm; [| discriminate].
      injection Hrun as <-. constructor.
      - exists e. reflexivity.
      - eapply finished_eval_failed. exact Hm. }
  destruct (eval_progs_shape wks) as [[las Hlas] | [e He]].
  2:{ rewrite H0 in Hrun. simpl in Hrun.
      rewrite (mapM_at_allreduce_raise _ e) in Hrun by exact He. discriminate. }
  right. exists ((l0, a0) :: las). split; [constructor; assumption |].
  assert (Hothers : eval_prog <$> wks
            = (fun s : Q * Q * (Q -> Q -> @world tensor) =>
                 two_step (fst (fst s)) (snd (fst s)) (snd s))
              <$> zip_with (fun wk la => (fst la, snd la, eval_end wk)) wks las).
  { clear -Hlas. induction Hlas as [| wk la wks las H _ IH]; [reflexivity |].
    rewrite fmap_cons. cbn [zip_with]. rewrite fmap_cons, H, IH. reflexivity. }
  rewrite H0, Hothers in Hrun.
  rewrite run_cluster_two_step in Hrun. injection Hrun as <-.
  assert (Hf : (fun s : Q * Q * (Q -> Q -> @world tensor) => fst (fst s))
                 <$> zip_with (fun wk la => (fst la, snd la, eval_end wk)) wks las
               = fst <$> las).
  { clear -Hlas. induction Hlas as [| wk la wks las _ _ IH]; [reflexivity |].
    cbn [zip_with]. rewrite !fmap_cons, IH. reflexivity. }
  assert (Hs : (fun s : Q * Q * (Q -> Q -> @world tensor) => snd (fst s))
                 <$> zip_with (fun wk la => (fst la, snd la, eval_end wk)) wks las
               = snd <$> las).
  { clear -Hlas. induction Hlas as [| wk la wks las _ _ IH]; [reflexivity |].
    cbn [zip_with]. rewrite !fmap_cons, IH. reflexivity. }
  rewrite !fmap_cons, Hf, Hs. simpl. f_equal.
  clear -Hlas. generalize (mean (l0 :: (fst <$> las))) (mean (a0 :: (snd <$> las))).
  intros L M. induction Hlas as [| wk la wks las _ _ IH]; [reflexivity |].
  cbn [zip_with]. rewrite !fmap_cons, IH. reflexivity.
Qed.

End ClusterFacts.



(** * The claims *)

(** ** Metric averaging *)


(** ** Configuration and set-up *)



(** C9. The learning rate of the SGD optimizer is the configured [--lr]
    times the number of workers; with one worker it is the configured
    value. *)
Theorem sgd_learning_rate {tensor input : Type} (E : @env tensor input)
    (argv : list string) (cfg : session) :
  setup E argv = Ret cfg ->
  parse_args argv = Some (args cfg) /\
  opt_lr cfg = (lr (args cfg) * inject_Z (Z.of_nat (hvd_size E)))%Q /\
  (hvd_size E = 1%nat -> (opt_lr cfg == lr (args cfg))%Q).
Proof.
  intros Hs. apply setup_ret in Hs as (Hp & _ & _ & _ & _ & _ & _ & _ & Hlr & _).
  split; [exact Hp |]. split; [exact Hlr |].
  intros H1. rewrite Hlr, H1. simpl. ring.
Qed.

Lemma sgd_learning_rate_witness :
  setup (Demo.E 0 1 true Demo.at_minute) Demo.argv2 = Ret (Demo.cfg 1) /\
  opt_lr (Demo.cfg 1) = (lr (args (Demo.cfg 1)) * inject_Z (Z.of_nat 1))%Q /\
  (opt_lr (Demo.cfg 1) == lr (args (Demo.cfg 1)))%Q.
Proof.
  split; [reflexivity |].
  destruct (sgd_learning_rate (Demo.E 0 1 true Demo.at_minute) Demo.argv2 (Demo.cfg 1) eq_refl)
    as (_ & Hlr & Hone).
  split; [exact Hlr | apply Hone; reflexivity].
Defined.



(** ** The epoch loops *)

Section LoopClaims.

Context {tensor input logits : Type}.
Variable forward : bool -> @model tensor -> input -> logits.
Variable nll : logits -> nat -> Q.
Variable argmax : logits -> nat.
Variable sgd : Z -> nat -> @model tensor -> list (@sample input) -> @param tensor -> tensor.

(** A completed run of the whole script on a cluster of one worker passed
    the set-up and then completed the two loops. *)
Lemma main_single_run (E : @env tensor input) (argv : list string) (w : @world tensor) :
  run_cluster (main forward nll argmax sgd E argv) [] = Some [Done w] ->
  exists cfg,
    setup E argv = Ret cfg /\
    exists i, answer (fun _ _ v => mean [v]) i
                (epoch_loops forward nll argmax sgd E cfg (init_world E)) = Done w.
Proof.
  rewrite (run_cluster_single _ 0). intros [= Hrun].
  unfold main in Hrun. rewrite bind_unfold in Hrun.
  apply answer_bind in Hrun as (cfg & j & Hsetup & Hloops).
  exists cfg. split; [| exists j; exact Hloops].
  destruct (setup_cases E argv) as [[c Hc] | [e He]].
  - rewrite Hc in Hsetup. simpl in Hsetup. injection Hsetup as <-. exact Hc.
  - rewrite He in Hsetup. discriminate.
Qed.

(** C1, as the code has it. With one worker and [--epochs 2] the warm-up
    loop [range(1, 2)] runs epoch 1 and the fine-tune loop [range(2, 3)]
    runs epoch 2: a completed run visits exactly the epochs 1 and 2. *)
Theorem one_worker_two_epochs (E : @env tensor input) (argv : list string) (a : Args)
    (w : @world tensor) :
  hvd_size E = 1%nat ->
  parse_args argv = Some a ->
  epochs a = 2 ->
  run_cluster (main forward nll argmax sgd E argv) [] = Some [Done w] ->
  warm_up_epochs = [1] /\
  Py.range N_FINETUNE_EPOCHS (epochs a + 1) = [2] /\
  epochs_visited (trace w) = [1; 2].
Proof.
  intros _ Hp He Hrun.
  split; [reflexivity |]. split; [rewrite He; reflexivity |].
  apply main_single_run in Hrun as (cfg & Hsetup & i & Hloops).
  apply setup_ret in Hsetup as (Hp' & _).
  assert (Ha : args cfg = a) by congruence.
  apply epoch_loops_run in Hloops as (w1 & t1 & t2 & H1 & H2).
  destruct H1 as (Ht1 & Hv1 & _). destruct H2 as (Ht2 & Hv2 & _).
  rewrite Ht2. simpl. rewrite Ht1. simpl.
  unfold epochs_visited in *. rewrite omap_app, Hv1, Hv2.
  unfold fine_tune_epochs. rewrite Ha, He. reflexivity.
Qed.

Variable E : @env tensor input.
Variable cfg : session.

(** C3. Started with only the classifier head trainable, every completed
    run of the two loops trains the head alone during the one warm-up
    epoch (epoch 1, whatever [--epochs] and the metrics are), makes every
    parameter trainable once, between the loops, and trains all parameters
    in every later epoch: no step after the transition is a head-only
    step, and all parameters are trainable at the end. *)
Theorem trainability_transition (h : nat -> string -> Q -> Q) (i : nat)
    (w0 wf : @world tensor) :
  frozen_feature (net w0) ->
  answer h i (epoch_loops forward nll argmax sgd E cfg w0) = Done wf ->
  exists (w1 : @world tensor) (t1 t2 : list event),
    trace w1 = trace w0 ++ t1 /\
    trace wf = trace w0 ++ t1 ++ t2 /\
    epochs_visited t1 = [1] /\
    Forall (fun u => u = head_names (net w0)) (steps t1) /\
    frozen_feature (net w1) /\
    fully_trainable (net (unfreeze w1)) /\
    epochs_visited t2 = Py.range 2 (epochs (args cfg) + 1) /\
    Forall (fun u => u = all_names (net w0)) (steps t2) /\
    fully_trainable (net wf).
Proof.
  intros Hfrozen Hrun.
  apply epoch_loops_run in Hrun as (w1 & t1 & t2 & H1 & H2).
  destruct H1 as (Ht1 & Hv1 & Hs1 & _ & Hfl1 & _).
  destruct H2 as (Ht2 & Hv2 & Hs2 & _ & Hfl2 & _).
  assert (Hfrozen1 : frozen_feature (net w1)).
  { unfold frozen_feature. rewrite Hfl1. exact Hfrozen. }
  pose proof (unfreeze_full w1 Hfrozen1) as Hfull.
  exists w1, t1, t2.
  split; [exact Ht1 |].
  split; [rewrite Ht2; simpl; rewrite Ht1, app_assoc; reflexivity |].
  split; [exact Hv1 |].
  split; [rewrite <- (frozen_names _ Hfrozen); exact Hs1 |].
  split; [exact Hfrozen1 |].
  split; [exact Hfull |].
  split; [exact Hv2 |].
  split.
  - rewrite (full_names _ Hfull), unfreeze_names in Hs2.
    unfold all_names in *. rewrite Hfl1 in Hs2. exact Hs2.
  - unfold fully_trainable in *. rewrite Hfl2. exact Hfull.
Qed.

(** C5, as the code has it. Every completed epoch of either loop ends with
    one [torch.save] of the whole [state_dict] to the path made of the
    output directory and [xception_train_<date>_<hour>-<minute>.pth], the
    time being read at the save; a save to a path that exists replaces the
    file. So a completed run has saved once per epoch, in order, and the
    files it leaves are the distinct paths among those saves. *)
Theorem checkpoint_after_every_epoch (h : nat -> string -> Q -> Q) (i : nat)
    (w0 wf : @world tensor) :
  answer h i (epoch_loops forward nll argmax sgd E cfg w0) = Done wf ->
  (forall now,
      checkpoint_path cfg now
      = Py.path_join (output_dir (args cfg)) ("xception_train" +:+ "_" +:+ time now +:+ ".pth") /\
      time now = date_str now +:+ "_" +:+ pretty (hour now) +:+ "-" +:+ pretty (minute now)) /\
  (forall j e w w',
      answer h j (epoch_body forward nll argmax sgd E cfg e w) = Done w' ->
      fs w' = <[checkpoint_path cfg (clock E (ticks w)) := state_dict (net w')]> (fs w)) /\
  exists t,
    trace wf = trace w0 ++ t /\
    epochs_visited t = warm_up_epochs ++ fine_tune_epochs cfg /\
    saves t = (fun k => checkpoint_path cfg (clock E k))
                <$> seq (ticks w0) (length (warm_up_epochs ++ fine_tune_epochs cfg)) /\
    dom (fs wf) = dom (fs w0) ∪ list_to_set (saves t).
Proof.
  intros Hrun. split; [split; reflexivity |]. split.
  { intros j e w w' Hbody.
    apply epoch_body_run in Hbody as (t & _ & _ & _ & _ & Hfs). exact Hfs. }
  apply epoch_loops_run in Hrun as (w1 & t1 & t2 & H1 & H2).
  destruct H1 as (Ht1 & Hv1 & _ & Hsv1 & _ & Hk1 & Hd1).
  destruct H2 as (Ht2 & Hv2 & _ & Hsv2 & _ & _ & Hd2).
  simpl in Ht2, Hsv2, Hd2.
  exists (t1 ++ t2).
  split; [rewrite Ht2, Ht1, app_assoc; reflexivity |].
  unfold epochs_visited, saves in *.
  rewrite !omap_app, Hv1, Hv2.
  split; [reflexivity |].
  split.
  - rewrite Hsv1, Hsv2, Hk1, length_app, seq_app, fmap_app. reflexivity.
  - rewrite Hd2, Hd1, list_to_set_app_L, union_assoc_L. reflexivity.
Qed.

End LoopClaims.

Lemma one_worker_two_epochs_witness :
  exists w, Demo.run Demo.at_minute Demo.argv2 = Some [Done w] /\
            epochs_visited (trace w) = [1; 2].
Proof.
  eexists. split; [vm_compute; reflexivity |].
  eapply (one_worker_two_epochs Demo.forward Demo.nll Demo.argmax Demo.sgd
            (Demo.E 0 1 true Demo.at_minute) Demo.argv2
            (set_epochs 2 (set_data_folder "/mnt" default_args))).
  - reflexivity.
  - reflexivity.
  - reflexivity.
  - vm_compute. reflexivity.
Defined.

(** C1 fails as stated: with one worker and [--epochs 2] the warm-up loop
    is not empty, and the run visits epoch 1 before epoch 2. *)
Lemma one_worker_two_epochs_counterexample :
  exists w, Demo.run Demo.at_minute Demo.argv2 = Some [Done w] /\
            length warm_up_epochs = 1%nat /\
            epochs_visited (trace w) = [1; 2] /\
            epochs_visited (trace w) <> [2].
Proof.
  eexists. split; [vm_compute; reflexivity |].
  split; [reflexivity |]. split; [reflexivity | discriminate].
Qed.

Lemma trainability_transition_witness :
  exists wf,
    answer (fun _ _ v => mean [v]) 0
      (epoch_loops Demo.forward Demo.nll Demo.argmax Demo.sgd
         (Demo.E 0 1 true Demo.at_minute) (Demo.cfg 1)
         (init_world (Demo.E 0 1 true Demo.at_minute))) = Done wf /\
    fully_trainable (net wf).
Proof.
  eexists. split; [vm_compute; reflexivity |].
  edestruct (trainability_transition Demo.forward Demo.nll Demo.argmax Demo.sgd
               (Demo.E 0 1 true Demo.at_minute) (Demo.cfg 1)
               (fun _ _ v => mean [v]) 0%nat
               (init_world (Demo.E 0 1 true Demo.at_minute)))
    as (w1 & t1 & t2 & _ & _ & _ & _ & _ & _ & _ & _ & Hfull).
  - repeat constructor.
  - vm_compute. reflexivity.
  - exact Hfull.
Defined.

Lemma checkpoint_after_every_epoch_witness :
  exists wf,
    answer (fun _ _ v => mean [v]) 0
      (epoch_loops Demo.forward Demo.nll Demo.argmax Demo.sgd
         (Demo.E 0 1 true Demo.at_minute) (Demo.cfg 1)
         (init_world (Demo.E 0 1 true Demo.at_minute))) = Done wf /\
    dom (fs wf) = {[ "./outputs/xception_train_2020-01-05_3-0.pth";
                     "./outputs/xception_train_2020-01-05_3-1.pth" ]}.
Proof.
  eexists. split; [vm_compute; reflexivity |].
  edestruct (checkpoint_after_every_epoch Demo.forward Demo.nll Demo.argmax Demo.sgd
               (Demo.E 0 1 true Demo.at_minute) (Demo.cfg 1)
               (fun _ _ v => mean [v]) 0%nat
               (init_world (Demo.E 0 1 true Demo.at_minute)))
    as (_ & _ & t & _ & _ & Hsaves & Hdom).
  - vm_compute. reflexivity.
  - rewrite Hdom, Hsaves. simpl dom. rewrite dom_empty_L, union_empty_l_L.
    vm_compute seq. cbn [fmap list_fmap list_to_set foldr].
    rewrite union_empty_r_L. reflexivity.
Defined.

(** C5 fails as stated: two epochs that end within the same minute are
    saved to the same path, and the run leaves one file for two completed
    epochs. *)
Lemma checkpoint_counterexample :
  exists w, Demo.run Demo.same_minute Demo.argv2 = Some [Done w] /\
            epochs_visited (trace w) = [1; 2] /\
            saves (trace w) = ["./outputs/xception_train_2020-01-05_3-7.pth";
                               "./outputs/xception_train_2020-01-05_3-7.pth"] /\
            size (fs w) = 1%nat.
Proof.
  eexists. split; [vm_compute; reflexivity |].
  split; [reflexivity |]. split; [reflexivity |]. vm_compute. reflexivity.
Qed.

(** ** The evaluation loop *)

Section EvalClaims.

Context {tensor input logits : Type}.
Variable forward : bool -> @model tensor -> input -> logits.
Variable nll : logits -> nat -> Q.
Variable argmax : logits -> nat.

Abbreviation test_loop := (test_loop forward nll argmax).
Abbreviation local_means := (local_means forward nll argmax).

(** With the loss weights on the device of the network and every target
    inside the weight vector, the local pass does not raise. *)
Lemma test_loop_ok (cfg : session) (w : @world tensor) (bs : list (list (@sample input))) :
  same_device cfg = true ->
  Forall (fun s => is_Some (class_weights cfg !! snd s)) (concat bs) ->
  forall L0 A0, exists L A, test_loop cfg w bs L0 A0 = Ret (L, A).
Proof.
  intros Hdev. induction bs as [| b bs IH]; intros Hin L0 A0; simpl.
  - eauto.
  - simpl in Hin. apply Forall_app in Hin as [Hb Hbs].
    unfold val_criterion. rewrite Hdev.
    destruct (mapM _ _) as [wl |] eqn:Hm.
    + rewrite bind_unfold. simpl bind. apply IH. exact Hbs.
    + exfalso. apply mapM_None in Hm. apply Exists_exists in Hm as (ot & Hot & Hnone).
      apply list_elem_of_fmap in Hot as (s & -> & Hs).
      rewrite Forall_forall in Hb. specialize (Hb s Hs).
      unfold sample_loss in Hnone. simpl in Hnone.
      destruct Hb as [wt Hwt]. rewrite Hwt in Hnone. discriminate.
Qed.

(** C2. Whenever the evaluation loop can run (a non-empty shard, targets
    inside the weight vector, the loss weights on the device of the
    network), it passes once over the shard summing the weighted losses and
    the hits, divides both sums by the shard size, offers the two local
    means to the collectives [avg_loss] and then [avg_accuracy], and ends
    in a state with the parameters it started with: the two scalars are
    all it communicates. *)
Theorem evaluation_contract (E : @env tensor input) (cfg : session) (w : @world tensor) :
  (0 < test_bs cfg)%nat ->
  same_device cfg = true ->
  test_shard E <> [] ->
  Forall (fun s => is_Some (class_weights cfg !! snd s)) (test_shard E) ->
  exists l a,
    test forward nll argmax E cfg w
    = Allreduce "avg_loss" l (fun x =>
      Allreduce "avg_accuracy" a (fun y =>
      Ret (report E x y (set_training false w)))) /\
    local_means E cfg w l a /\
    forall x y, net (report E x y (set_training false w)) = net w.
Proof.
  intros Hbs Hdev Hne Hin.
  destruct (test_cases forward nll argmax E cfg w Hbs) as [(l & a & Ht & Hm) | [e He]].
  - exists l, a. split; [exact Ht |]. split; [exact Hm |].
    intros x y. destruct (report_net E x y (set_training false w)) as [Hn _]. exact Hn.
  - exfalso. unfold test in He.
    destruct (test_loop_ok cfg (set_training false w)
                (batches (test_bs cfg) (test_shard E)) Hdev) with (L0 := 0%Q) (A0 := 0%Q)
      as (L & A & Hrun).
    + rewrite batches_concat by exact Hbs. exact Hin.
    + rewrite Hrun, bind_unfold in He. simpl bind in He.
      destruct (length (test_shard E) =? 0)%nat eqn:Hlen.
      * apply Nat.eqb_eq in Hlen. destruct (test_shard E); [congruence | discriminate].
      * discriminate.
Qed.

(** The local means are bounded. *)
Lemma local_means_bounds (E : @env tensor input) (cfg : session) (w : @world tensor) (l a : Q) :
  (forall o t, (0 <= nll o t)%Q) ->
  Forall (fun x => (0 <= x)%Q) (class_weights cfg) ->
  local_means E cfg w l a ->
  (0 <= l)%Q /\ (0 <= a)%Q /\ (a <= 1)%Q.
Proof.
  intros Hnll Hw (Hne & wl & Hwl & Hl & Ha).
  assert (Hn : (0 < inject_Z (Z.of_nat (length (test_shard E))))%Q).
  { apply inject_nat_pos. destruct (test_shard E); [congruence | simpl; lia]. }
  split; [| split].
  - rewrite Hl. apply Qle_shift_div_l; [exact Hn |]. rewrite Qmult_0_l.
    apply Qsum_nonneg. apply Forall_fmap.
    clear -Hwl Hnll Hw. induction Hwl as [| ot x outs wl Hx _ IH]; constructor; [| exact IH].
    unfold sample_loss in Hx.
    destruct (class_weights cfg !! snd ot) as [wt |] eqn:Hwt; [| discriminate].
    injection Hx as <-. simpl. apply Qmult_le_0_compat; [| apply Hnll].
    rewrite Forall_forall in Hw. apply Hw. eapply list_elem_of_lookup_2. exact Hwt.
  - rewrite Ha. apply Qle_shift_div_l; [exact Hn |]. rewrite Qmult_0_l.
    replace 0%Q with (inject_Z 0) by reflexivity. rewrite <- Zle_Qle. lia.
  - rewrite Ha. apply Qle_shift_div_r; [exact Hn |]. rewrite Qmult_1_l.
    rewrite <- Zle_Qle. apply inj_le.
    etransitivity; [apply correct_le |].
    unfold outs_of. rewrite length_fmap. reflexivity.
Qed.

Lemma eval_end_reported (wk : @worker tensor input) (l a : Q) :
  reported wk (Done (eval_end wk l a)) l a.
Proof.
  exists (eval_end wk l a). split; [reflexivity |]. unfold eval_end.
  rewrite report_trace.
  destruct (report_net (fst (fst wk)) l a (set_training false (snd wk))) as [Hn _].
  rewrite Hn. split; reflexivity.
Qed.

(** C7. When an evaluation pass completes on a cluster, either every
    worker raised before the collectives, or there are two averaged values
    that every worker, whatever its rank, logs as [val_loss] and [val_acc],
    and exactly the workers of rank 0 print the summary line. *)
Theorem evaluation_reporting (wk0 : @worker tensor input) (wks : list (@worker tensor input))
    (outs : list (outcome (@world tensor))) :
  run_cluster (eval_prog forward nll argmax wk0) (eval_prog forward nll argmax <$> wks) = Some outs ->
  Forall failed outs \/
  exists l a, Forall2 (fun wk o => reported wk o l a) (wk0 :: wks) outs.
Proof.
  intros Hrun. apply eval_cluster in Hrun as [Hfail | (las & _ & ->)].
  - left. exact Hfail.
  - right. exists (mean (fst <$> las)), (mean (snd <$> las)).
    apply Forall2_fmap_r, Forall_Forall2_diag, Forall_forall.
    intros wk _. apply eval_end_reported.
Qed.

Lemma two_step_inj {A : Type} (l a l' a' : Q) (k k' : Q -> Q -> A) :
  two_step l a k = two_step l' a' k' -> l = l' /\ a = a'.
Proof.
  unfold two_step. intros H. injection H as Hl Hk. split; [exact Hl |].
  apply (f_equal (fun f => f 0%Q)) in Hk. injection Hk as Ha _. exact Ha.
Qed.

(** C6. For any datasets, when an evaluation pass completes on a cluster
    whose loss is non-negative (non-negative class weights), the loss every
    worker reports is non-negative and the accuracy it reports lies between
    0 and 1. *)
Theorem evaluation_bounds (wk0 : @worker tensor input) (wks : list (@worker tensor input))
    (outs : list (outcome (@world tensor))) :
  (forall o t, (0 <= nll o t)%Q) ->
  Forall (fun wk : @worker tensor input =>
            Forall (fun x => (0 <= x)%Q) (class_weights (snd (fst wk))) /\
            (0 < test_bs (snd (fst wk)))%nat) (wk0 :: wks) ->
  run_cluster (eval_prog forward nll argmax wk0) (eval_prog forward nll argmax <$> wks) = Some outs ->
  Forall failed outs \/
  exists l a,
    Forall2 (fun wk o => reported wk o l a) (wk0 :: wks) outs /\
    (0 <= l)%Q /\ (0 <= a)%Q /\ (a <= 1)%Q.
Proof.
  intros Hnll Hcfg Hrun.
  apply eval_cluster in Hrun as [Hfail | (las & Hlas & ->)]; [left; exact Hfail | right].
  exists (mean (fst <$> las)), (mean (snd <$> las)).
  split.
  { apply Forall2_fmap_r, Forall_Forall2_diag, Forall_forall.
    intros wk _. apply eval_end_reported. }
  assert (Hb : Forall (fun la : Q * Q =>
                         (0 <= fst la)%Q /\ (0 <= snd la)%Q /\ (snd la <= 1)%Q) las).
  { revert Hcfg Hlas. generalize (wk0 :: wks). intros ws Hcfg Hlas.
    induction Hlas as [| wk la ws las Hshape _ IH]; constructor.
    - apply Forall_cons in Hcfg as [[Hw Hbs] _].
      destruct wk as [[E cfg] w]. simpl in *.
      destruct (test_cases forward nll argmax E cfg w Hbs) as [(l' & a' & Ht & Hm) | [e He]].
      + unfold eval_prog in Hshape. simpl in Hshape. rewrite Ht in Hshape.
        apply two_step_inj in Hshape as [<- <-].
        eapply local_means_bounds; eassumption.
      + unfold eval_prog in Hshape. simpl in Hshape. rewrite He in Hshape.
        discriminate.
    - apply IH. apply Forall_cons in Hcfg as [_ Hcfg]. exact Hcfg. }
  split; [| split].
  - apply mean_nonneg, Forall_fmap. eapply Forall_impl; [exact Hb |]. simpl. tauto.
  - apply mean_nonneg, Forall_fmap. eapply Forall_impl; [exact Hb |]. simpl. tauto.
  - apply mean_le_1, Forall_fmap. eapply Forall_impl; [exact Hb |]. simpl. tauto.
Qed.

End EvalClaims.

Lemma evaluation_contract_witness :
  exists l a,
    test Demo.forward Demo.nll Demo.argmax (Demo.E 0 1 true Demo.at_minute) (Demo.cfg 1)
      (init_world (Demo.E 0 1 true Demo.at_minute))
    = Allreduce "avg_loss" l (fun x =>
      Allreduce "avg_accuracy" a (fun y =>
      Ret (report (Demo.E 0 1 true Demo.at_minute) x y
             (set_training false (init_world (Demo.E 0 1 true Demo.at_minute)))))).
Proof.
  destruct (evaluation_contract Demo.forward Demo.nll Demo.argmax
              (Demo.E 0 1 true Demo.at_minute) (Demo.cfg 1)
              (init_world (Demo.E 0 1 true Demo.at_minute)))
    as (l & a & Htest & _).
  - simpl. lia.
  - reflexivity.
  - discriminate.
  - repeat constructor; eexists; reflexivity.
  - exists l, a. exact Htest.
Defined.

Lemma evaluation_reporting_witness :
  exists outs,
    run_cluster (eval_prog Demo.forward Demo.nll Demo.argmax Demo.worker0)
                (eval_prog Demo.forward Demo.nll Demo.argmax <$> [Demo.worker1]) = Some outs /\
    (Forall failed outs \/
     exists l a, Forall2 (fun wk o => reported wk o l a) [Demo.worker0; Demo.worker1] outs).
Proof.
  eexists. split; [vm_compute; reflexivity |].
  apply (evaluation_reporting Demo.forward Demo.nll Demo.argmax Demo.worker0 [Demo.worker1]).
  vm_compute. reflexivity.
Defined.

Lemma evaluation_bounds_witness :
  exists outs,
    run_cluster (eval_prog Demo.forward Demo.nll Demo.argmax Demo.worker0)
                (eval_prog Demo.forward Demo.nll Demo.argmax <$> [Demo.worker1]) = Some outs /\
    (Forall failed outs \/
     exists l a, Forall2 (fun wk o => reported wk o l a) [Demo.worker0; Demo.worker1] outs /\
                 (0 <= l)%Q /\ (0 <= a)%Q /\ (a <= 1)%Q).
Proof.
  eexists. split; [vm_compute; reflexivity |].
  apply (evaluation_bounds Demo.forward Demo.nll Demo.argmax Demo.worker0 [Demo.worker1]).
  - intros o t. unfold Demo.nll. destruct (o =? t)%nat; discriminate.
  - repeat constructor; simpl; try discriminate; lia.
  - vm_compute. reflexivity.
Defined.

(** * Further properties of the script *)

(** ** [range] *)

Lemma range_empty (a b : Z) : b <= a -> Py.range a b = [].
Proof.
  intros H. unfold Py.range. replace (Z.to_nat (b - a)) with 0%nat by lia. reflexivity.
Qed.

Lemma range_cons (a b : Z) : a < b -> Py.range a b = a :: Py.range (a + 1) b.
Proof.
  intros H. unfold Py.range.
  replace (Z.to_nat (b - a)) with (S (Z.to_nat (b - (a + 1)))) by lia.
  cbn [seq]. rewrite fmap_cons. f_equal; [lia |].
  rewrite <- fmap_S_seq, <- list_fmap_compose.
  apply list_fmap_ext. intros _ i _. simpl. lia.
Qed.

(** ** The schedule of epochs *)

Section ScheduleFacts.

Context {tensor input logits : Type}.
Variable forward : bool -> @model tensor -> input -> logits.
Variable nll : logits -> nat -> Q.
Variable argmax : logits -> nat.
Variable sgd : Z -> nat -> @model tensor -> list (@sample input) -> @param tensor -> tensor.
Variable E : @env tensor input.
Variable cfg : session.

(** X1. A completed run of the two loops trains epoch 1 and then the
    epochs 2 to [--epochs], each once and in increasing order: for
    [--epochs] at least 1 these are the epochs 1 to [--epochs]; for
    [--epochs] below 1 (zero or negative) epoch 1 is trained all the same. *)
Theorem epoch_schedule (h : nat -> string -> Q -> Q) (i : nat) (w0 wf : @world tensor) :
  answer h i (epoch_loops forward nll argmax sgd E cfg w0) = Done wf ->
  exists t,
    trace wf = trace w0 ++ t /\
    epochs_visited t = 1 :: Py.range 2 (epochs (args cfg) + 1) /\
    (1 <= epochs (args cfg) -> epochs_visited t = Py.range 1 (epochs (args cfg) + 1)) /\
    (epochs (args cfg) <= 1 -> epochs_visited t = [1]).
Proof.
  intros Hrun.
  apply epoch_loops_run in Hrun as (w1 & t1 & t2 & H1 & H2).
  destruct H1 as (Ht1 & Hv1 & _). destruct H2 as (Ht2 & Hv2 & _).
  exists (t1 ++ t2).
  split; [rewrite Ht2; simpl; rewrite Ht1, app_assoc; reflexivity |].
  assert (Hv : epochs_visited (t1 ++ t2) = 1 :: Py.range 2 (epochs (args cfg) + 1)).
  { unfold epochs_visited in *. rewrite omap_app, Hv1, Hv2. reflexivity. }
  split; [exact Hv |]. split; intros He; rewrite Hv.
  - rewrite (range_cons 1) by lia. reflexivity.
  - rewrite range_empty by lia. reflexivity.
Qed.

End ScheduleFacts.

Lemma epoch_schedule_witness :
  exists wf,
    answer (fun _ _ v => mean [v]) 0
      (epoch_loops Demo.forward Demo.nll Demo.argmax Demo.sgd
         (Demo.E 0 1 true Demo.at_minute) (Demo.cfg 1)
         (init_world (Demo.E 0 1 true Demo.at_minute))) = Done wf /\
    epochs_visited (trace wf) = [1; 2].
Proof.
  eexists. split; [vm_compute; reflexivity |].
  edestruct (epoch_schedule Demo.forward Demo.nll Demo.argmax Demo.sgd
               (Demo.E 0 1 true Demo.at_minute) (Demo.cfg 1)
               (fun _ _ v => mean [v]) 0%nat
               (init_world (Demo.E 0 1 true Demo.at_minute)))
    as (t & Ht & _ & Hv & _).
  - vm_compute. reflexivity.
  - rewrite Ht. cbn [init_world trace app]. apply Hv. simpl. lia.
Defined.

(** ** Parameters through the epochs *)

Section ParameterFacts.

Context {tensor input logits : Type}.
Variable forward : bool -> @model tensor -> input -> logits.
Variable nll : logits -> nat -> Q.
Variable argmax : logits -> nat.
Variable sgd : Z -> nat -> @model tensor -> list (@sample input) -> @param tensor -> tensor.
Variable E : @env tensor input.
Variable cfg : session.

(** A completed epoch is a returned [train], a reported evaluation and a
    save. *)
Lemma epoch_body_inv (h : nat -> string -> Q -> Q) (i : nat) (e : Z) (w w' : @world tensor) :
  answer h i (epoch_body forward nll argmax sgd E cfg e w) = Done w' ->
  exists w1 x y,
    train forward nll sgd E cfg e w = Ret w1 /\
    w' = save E cfg (report E x y (set_training false w1)).
Proof.
  unfold epoch_body.
  destruct (train_cases forward nll sgd E cfg e w) as [(w1 & t & Htrain & _) | [x Hx]].
  2:{ rewrite Hx. discriminate. }
  rewrite Htrain, bind_unfold. simpl bind.
  destruct (test_shape forward nll argmax E cfg w1) as [(l & a & Htest) | [x Hx]].
  2:{ rewrite Hx. discriminate. }
  rewrite Htest. simpl. intros [= <-]. eauto.
Qed.

Lemma train_batch_net (e : Z) (nb i : nat) (b : list sample) (w w' : @world tensor) :
  train_batch forward nll sgd E cfg e nb i b w = Ret w' ->
  net w' = optimizer_step sgd e i b (net w).
Proof.
  unfold train_batch.
  destruct (criterion_cases nll cfg
              ((fun s => (forward (training w) (net w) (fst s), snd s)) <$> b))
    as [[q Hq] | [x Hx]].
  2:{ rewrite Hx. discriminate. }
  rewrite Hq, bind_unfold. simpl bind.
  destruct (log_interval (args cfg) =? 0); [discriminate |].
  destruct (_ mod _ =? 0); intros [= <-]; reflexivity.
Qed.

Lemma train_loop_frozen (e : Z) (nb : nat) (bs : list (list sample)) :
  forall (i : nat) (w w' : @world tensor),
  train_loop forward nll sgd E cfg e nb i bs w = Ret w' ->
  frozen_params (net w') = frozen_params (net w).
Proof.
  induction bs as [| b bs IH]; intros i w w'; simpl.
  - intros [= <-]. reflexivity.
  - destruct (train_batch_cases forward nll sgd E cfg e nb i b w)
      as [(w1 & t1 & Hb & _) | [x Hx]].
    2:{ rewrite Hx. discriminate. }
    rewrite Hb, bind_unfold. simpl bind. intros Hrest.
    apply IH in Hrest. rewrite Hrest.
    apply train_batch_net in Hb. rewrite Hb.
    apply optimizer_step_frozen.
Qed.

Lemma train_frozen (e : Z) (w w' : @world tensor) :
  train forward nll sgd E cfg e w = Ret w' ->
  frozen_params (net w') = frozen_params (net w).
Proof. unfold train. intros H. apply train_loop_frozen in H. exact H. Qed.

Lemma frozen_feature_params (m : @model tensor) :
  frozen_feature m -> frozen_params m = feature_params m.
Proof.
  unfold frozen_feature, flags, frozen_params, feature_params, model in *.
  rewrite Forall_fmap.
  induction 1 as [| p m Hp _ IH]; [reflexivity |].
  simpl in Hp. rewrite !filter_cons, IH, Hp.
  destruct (in_features p); simpl.
  - destruct (decide (false = false)); [| congruence].
    destruct (decide (true = true)); [reflexivity | congruence].
  - destruct (decide (true = false)); [discriminate |].
    destruct (decide (false = true)); [discriminate | reflexivity].
Qed.

(** X2. Through any completed sequence of epochs (train, evaluate, save)
    the parameters whose [requires_grad] is off keep their names, their
    order and their values. In particular, started with only the head
    trainable, the parameters of [model.features] come out of the warm-up
    loop exactly as they went in. *)
Theorem frozen_parameters_unchanged (h : nat -> string -> Q -> Q) (es : list Z) (i : nat)
    (w w' : @world tensor) :
  answer h i (for_epochs forward nll argmax sgd E cfg es w) = Done w' ->
  frozen_params (net w') = frozen_params (net w) /\
  (frozen_feature (net w) -> feature_params (net w') = feature_params (net w)).
Proof.
  intros Hrun.
  assert (Hfr : frozen_params (net w') = frozen_params (net w)).
  { revert i w Hrun. induction es as [| e es IH]; intros i w Hrun; simpl in Hrun.
    - injection Hrun as <-. reflexivity.
    - rewrite bind_unfold in Hrun. apply answer_bind in Hrun as (w1 & j & Hbody & Hrest).
      apply IH in Hrest. rewrite Hrest.
      apply epoch_body_inv in Hbody as (w2 & x & y & Htrain & ->).
      apply train_frozen in Htrain. rewrite <- Htrain.
      simpl. destruct (report_net E x y (set_training false w2)) as [Hn _].
      rewrite Hn. reflexivity. }
  split; [exact Hfr |].
  intros Hfrozen.
  apply for_epochs_run in Hrun as (t & _ & _ & _ & _ & Hfl & _).
  rewrite <- !frozen_feature_params; [exact Hfr | exact Hfrozen |].
  unfold frozen_feature. rewrite Hfl. exact Hfrozen.
Qed.

(** X6. Unfreezing changes no name and no value, leaves every parameter
    outside [model.features] as it was, makes every parameter of
    [model.features] trainable, and done twice changes nothing more. *)
Theorem unfreeze_effect (w : @world tensor) :
  state_dict (net (unfreeze w)) = state_dict (net w) /\
  filter (fun p => in_features p = false) (net (unfreeze w))
    = filter (fun p => in_features p = false) (net w) /\
  Forall (fun p => requires_grad p = true) (feature_params (net (unfreeze w))) /\
  unfreeze (unfreeze w) = unfreeze w.
Proof.
  destruct w as [m tr ep tk files t]. unfold unfreeze, set_net, feature_params. simpl.
  split; [| split; [| split]].
  - unfold state_dict. rewrite <- list_fmap_compose.
    apply list_fmap_ext. intros _ [n f r v] _. destruct f; reflexivity.
  - unfold model in *. induction m as [| [n f r v] m IH]; [reflexivity |].
    rewrite fmap_cons, filter_cons, (filter_cons _ _ m). destruct f; simpl.
    + destruct (decide (true = false)); [discriminate | exact IH].
    + destruct (decide (false = false)); [| congruence]. rewrite IH. reflexivity.
  - unfold model in *. induction m as [| [n f r v] m IH]; [constructor |].
    rewrite fmap_cons, filter_cons. destruct f; simpl.
    + destruct (decide (true = true)); [| congruence]. constructor; [reflexivity | exact IH].
    + destruct (decide (false = true)); [discriminate | exact IH].
  - f_equal. rewrite <- list_fmap_compose.
    apply list_fmap_ext. intros _ [n f r v] _. destruct f; reflexivity.
Qed.

End ParameterFacts.

Lemma frozen_parameters_unchanged_witness :
  exists w',
    answer (fun _ _ v => mean [v]) 0
      (for_epochs Demo.forward Demo.nll Demo.argmax Demo.sgd
         (Demo.E 0 1 true Demo.at_minute) (Demo.cfg 1) [1; 2; 3]
         (init_world (Demo.E 0 1 true Demo.at_minute))) = Done w' /\
    feature_params (net w') = [mkParam "features.conv1.weight" true false 0].
Proof.
  eexists. split; [vm_compute; reflexivity |].
  edestruct (frozen_parameters_unchanged Demo.forward Demo.nll Demo.argmax Demo.sgd
               (Demo.E 0 1 true Demo.at_minute) (Demo.cfg 1)
               (fun _ _ v => mean [v]) [1; 2; 3] 0%nat
               (init_world (Demo.E 0 1 true Demo.at_minute)))
    as (_ & Hfeat).
  - vm_compute. reflexivity.
  - apply Hfeat. repeat constructor.
Defined.

(** ** What the checkpoints hold *)

Section CheckpointFacts.

Context {tensor input logits : Type}.
Variable forward : bool -> @model tensor -> input -> logits.
Variable nll : logits -> nat -> Q.
Variable argmax : logits -> nat.
Variable sgd : Z -> nat -> @model tensor -> list (@sample input) -> @param tensor -> tensor.
Variable E : @env tensor input.
Variable cfg : session.

Lemma state_dict_keys (m : @model tensor) : fst <$> state_dict m = pname <$> m.
Proof.
  unfold state_dict. rewrite <- list_fmap_compose. apply list_fmap_ext. reflexivity.
Qed.

Lemma flags_names (m m' : @model tensor) : flags m = flags m' -> pname <$> m = pname <$> m'.
Proof.
  intros H. apply (f_equal (fmap (fun x : string * bool * bool => fst (fst x)))) in H.
  unfold flags in H. rewrite <- !list_fmap_compose in H. exact H.
Qed.

Lemma unfreeze_state_dict (w : @world tensor) :
  state_dict (net (unfreeze w)) = state_dict (net w).
Proof.
  unfold unfreeze, state_dict. simpl. rewrite <- list_fmap_compose.
  apply list_fmap_ext. intros _ [n f r v] _. destruct f; reflexivity.
Qed.

Lemma for_epochs_keys (h : nat -> string -> Q -> Q) (es : list Z) :
  forall (i : nat) (w w' : @world tensor),
  answer h i (for_epochs forward nll argmax sgd E cfg es w) = Done w' ->
  forall path sd,
    fs w' !! path = Some sd ->
    fs w !! path = Some sd \/ fst <$> sd = pname <$> net w.
Proof.
  induction es as [| e es IH]; intros i w w' Hrun path sd Hsd; simpl in Hrun.
  - injection Hrun as <-. left. exact Hsd.
  - rewrite bind_unfold in Hrun. apply answer_bind in Hrun as (w1 & j & Hbody & Hrest).
    apply epoch_body_run in Hbody as (t & _ & _ & Hfl & _ & Hfs).
    apply flags_names in Hfl.
    destruct (IH _ _ _ Hrest path sd Hsd) as [Hold | Hkeys].
    + rewrite Hfs, lookup_insert in Hold.
      destruct (decide (checkpoint_path cfg (clock E (ticks w)) = path)).
      * right. injection Hold as <-. rewrite state_dict_keys. exact Hfl.
      * left. exact Hold.
    + right. rewrite Hkeys. exact Hfl.
Qed.

(** X3. Every file a completed run of the two loops has written holds a
    parameter mapping with exactly the keys of the model the run started
    with, in the model's order; any other file is one that was there before,
    unchanged. *)
Theorem checkpoint_keys (h : nat -> string -> Q -> Q) (i : nat) (w0 wf : @world tensor) :
  answer h i (epoch_loops forward nll argmax sgd E cfg w0) = Done wf ->
  forall path sd,
    fs wf !! path = Some sd ->
    fs w0 !! path = Some sd \/ fst <$> sd = pname <$> net w0.
Proof.
  unfold epoch_loops. rewrite bind_unfold. intros Hrun path sd Hsd.
  apply answer_bind in Hrun as (w1 & j & Hwarm & Hfine).
  pose proof (for_epochs_run forward nll argmax sgd E cfg h _ _ _ _ Hwarm)
    as (t1 & _ & _ & _ & _ & Hfl & _).
  apply flags_names in Hfl.
  destruct (for_epochs_keys h _ _ _ _ Hfine path sd Hsd) as [Hold | Hkeys].
  - simpl in Hold. destruct (for_epochs_keys h _ _ _ _ Hwarm path sd Hold) as [H0 | Hkeys].
    + left. exact H0.
    + right. exact Hkeys.
  - right. rewrite Hkeys, <- Hfl, <- !state_dict_keys, unfreeze_state_dict. reflexivity.
Qed.

Lemma for_epochs_last (h : nat -> string -> Q -> Q) (es : list Z) :
  forall (i : nat) (w w' : @world tensor),
  es <> [] ->
  answer h i (for_epochs forward nll argmax sgd E cfg es w) = Done w' ->
  fs w' !! checkpoint_path cfg (clock E (ticks w + length es - 1)) = Some (state_dict (net w')).
Proof.
  induction es as [| e es IH]; intros i w w' Hne Hrun; [congruence |].
  simpl in Hrun. rewrite bind_unfold in Hrun.
  apply answer_bind in Hrun as (w1 & j & Hbody & Hrest).
  apply epoch_body_run in Hbody as (t & _ & _ & _ & Hk & Hfs).
  destruct es as [| e2 es].
  - simpl in Hrest. injection Hrest as <-.
    rewrite Hfs. simpl length. replace (ticks w + 1 - 1)%nat with (ticks w) by lia.
    apply lookup_insert_eq.
  - apply IH in Hrest; [| discriminate].
    rewrite Hk in Hrest.
    replace (ticks w + length (e :: e2 :: es) - 1)%nat
      with (S (ticks w) + length (e2 :: es) - 1)%nat by (simpl; lia).
    exact Hrest.
Qed.

(** X4. When a run of the two loops completes, the file written by the last
    save holds the final parameters of the model. *)
Theorem last_checkpoint_is_final (h : nat -> string -> Q -> Q) (i : nat)
    (w0 wf : @world tensor) :
  answer h i (epoch_loops forward nll argmax sgd E cfg w0) = Done wf ->
  fs wf !! checkpoint_path cfg
             (clock E (ticks w0 + length (warm_up_epochs ++ fine_tune_epochs cfg) - 1))
  = Some (state_dict (net wf)).
Proof.
  unfold epoch_loops. rewrite bind_unfold. intros Hrun.
  apply answer_bind in Hrun as (w1 & j & Hwarm & Hfine).
  pose proof (for_epochs_run forward nll argmax sgd E cfg h _ _ _ _ Hwarm)
    as (t1 & _ & _ & _ & _ & _ & Hk & _).
  rewrite length_app.
  destruct (fine_tune_epochs cfg) as [| e es] eqn:Hes.
  - simpl in Hfine. injection Hfine as <-.
    rewrite unfreeze_state_dict. simpl fs. rewrite Nat.add_0_r.
    assert (Hne : warm_up_epochs <> []) by (vm_compute; discriminate).
    apply (for_epochs_last h _ _ _ _ Hne Hwarm).
  - apply for_epochs_last in Hfine; [| discriminate].
    simpl ticks in Hfine. rewrite Hk in Hfine.
    replace (ticks w0 + (length warm_up_epochs + length (e :: es)) - 1)%nat
      with (ticks w0 + length warm_up_epochs + length (e :: es) - 1)%nat by lia.
    exact Hfine.
Qed.

End CheckpointFacts.

Lemma checkpoint_keys_witness :
  exists wf,
    answer (fun _ _ v => mean [v]) 0
      (epoch_loops Demo.forward Demo.nll Demo.argmax Demo.sgd
         (Demo.E 0 1 true Demo.at_minute) (Demo.cfg 1)
         (init_world (Demo.E 0 1 true Demo.at_minute))) = Done wf /\
    forall path sd, fs wf !! path = Some sd ->
                    fst <$> sd = ["features.conv1.weight"; "fc.weight"].
Proof.
  eexists. split; [vm_compute; reflexivity |].
  intros path sd Hsd.
  edestruct (checkpoint_keys Demo.forward Demo.nll Demo.argmax Demo.sgd
               (Demo.E 0 1 true Demo.at_minute) (Demo.cfg 1)
               (fun _ _ v => mean [v]) 0%nat
               (init_world (Demo.E 0 1 true Demo.at_minute))) as [Hold | Hkeys].
  - vm_compute. reflexivity.
  - exact Hsd.
  - cbn [init_world fs] in Hold. rewrite lookup_empty in Hold. discriminate.
  - exact Hkeys.
Defined.

Lemma last_checkpoint_is_final_witness :
  exists wf,
    answer (fun _ _ v => mean [v]) 0
      (epoch_loops Demo.forward Demo.nll Demo.argmax Demo.sgd
         (Demo.E 0 1 true Demo.at_minute) (Demo.cfg 1)
         (init_world (Demo.E 0 1 true Demo.at_minute))) = Done wf /\
    fs wf !! "./outputs/xception_train_2020-01-05_3-1.pth" = Some (state_dict (net wf)).
Proof.
  eexists. split; [vm_compute; reflexivity |].
  apply (last_checkpoint_is_final Demo.forward Demo.nll Demo.argmax Demo.sgd
           (Demo.E 0 1 true Demo.at_minute) (Demo.cfg 1)
           (fun _ _ v => mean [v]) 0%nat
           (init_world (Demo.E 0 1 true Demo.at_minute))).
  vm_compute. reflexivity.
Defined.

(** ** Checkpoint names *)

Lemma app_nil_str (r : string) : EmptyString +:+ r = r.
Proof. reflexivity. Qed.

Lemma app_cons_str (c : ascii) (s r : string) : String c s +:+ r = String c (s +:+ r).
Proof. reflexivity. Qed.

Lemma string_app_assoc (a b c : string) : (a +:+ b) +:+ c = a +:+ (b +:+ c).
Proof.
  induction a as [| x a IH]; [reflexivity |].
  rewrite !app_cons_str, IH. reflexivity.
Qed.

Lemma digit_of_pretty_char (d : N) :
  (d < 10)%N -> Py.digit_of (pretty_N_char d) = Some (Z.of_N d).
Proof.
  intros Hd.
  assert (d = 0 \/ d = 1 \/ d = 2 \/ d = 3 \/ d = 4 \/ d = 5 \/ d = 6 \/ d = 7
          \/ d = 8 \/ d = 9)%N as H by lia.
  repeat (destruct H as [-> | H]; [reflexivity |]). subst d. reflexivity.
Qed.

(** Reading back the digits [pretty] wrote. *)
Lemma digits_acc_pretty_go (x : N) :
  exists p : Z, forall (s : string) (acc : Z),
    Py.digits_acc (pretty_N_go x s) acc = Py.digits_acc s (acc * p + Z.of_N x).
Proof.
  induction (N.lt_wf_0 x) as [x _ IH].
  assert (x = 0 \/ 0 < x)%N as [-> | Hpos] by lia.
  - exists 1. intros s acc. rewrite pretty_N_go_0. f_equal. lia.
  - destruct (IH (x `div` 10)%N) as [p Hp]; [apply N.div_lt; lia |].
    exists (10 * p). intros s acc.
    rewrite pretty_N_go_step, Hp by exact Hpos. simpl Py.digits_acc.
    rewrite digit_of_pretty_char by (apply N.mod_lt; lia).
    f_equal. pose proof (N.div_mod x 10 ltac:(lia)) as Hdm. lia.
Qed.

Lemma digits_acc_pretty (n : nat) : Py.digits_acc (pretty n) 0 = Some (Z.of_nat n).
Proof.
  unfold pretty, pretty_nat, pretty, pretty_N.
  destruct (decide (N.of_nat n = 0%N)) as [H0 | Hne].
  - simpl. f_equal. lia.
  - destruct (digits_acc_pretty_go (N.of_nat n)) as [p Hp].
    rewrite Hp. simpl. f_equal. lia.
Qed.

Lemma digits_acc_zeros (k : nat) (s : string) :
  Py.digits_acc (Py.zeros k +:+ s) 0 = Py.digits_acc s 0.
Proof. induction k as [| k IH]; [reflexivity | exact IH]. Qed.

Lemma digits_acc_zfill (w n : nat) : Py.digits_acc (Py.zfill w n) 0 = Some (Z.of_nat n).
Proof. unfold Py.zfill. rewrite digits_acc_zeros. apply digits_acc_pretty. Qed.

Lemma digits_acc_all_digits (s : string) :
  forall acc v, Py.digits_acc s acc = Some v -> all_digits s = true.
Proof.
  induction s as [| c s IH]; intros acc v H; [reflexivity |].
  simpl in *. destruct (Py.digit_of c) as [d |] eqn:Hd; [| discriminate].
  rewrite (IH _ _ H), andb_true_r. apply bool_decide_eq_true. eauto.
Qed.

(** Two digit strings followed by the same non-digit are equal when the
    whole strings are. *)
Lemma digits_split (c : ascii) (s1 : string) :
  Py.digit_of c = None ->
  forall s2 r1 r2,
    all_digits s1 = true -> all_digits s2 = true ->
    s1 +:+ String c r1 = s2 +:+ String c r2 ->
    s1 = s2 /\ r1 = r2.
Proof.
  intros Hc. induction s1 as [| x s1 IH]; intros [| y s2] r1 r2 H1 H2 Heq;
    rewrite ?app_nil_str, ?app_cons_str in Heq; simpl in H1, H2.
  - injection Heq as <-. split; reflexivity.
  - injection Heq as <- _. apply andb_true_iff in H2 as [H2 _].
    apply bool_decide_eq_true in H2. rewrite Hc in H2. destruct H2; discriminate.
  - injection Heq as -> _. apply andb_true_iff in H1 as [H1 _].
    apply bool_decide_eq_true in H1. rewrite Hc in H1. destruct H1; discriminate.
  - injection Heq as <- Heq.
    apply andb_true_iff in H1 as [_ H1]. apply andb_true_iff in H2 as [_ H2].
    destruct (IH s2 r1 r2 H1 H2 Heq) as [-> ->]. split; reflexivity.
Qed.

Lemma zfill_digits (w n : nat) : all_digits (Py.zfill w n) = true.
Proof. eapply digits_acc_all_digits. apply digits_acc_zfill. Qed.

Lemma pretty_digits (n : nat) : all_digits (pretty n) = true.
Proof. eapply digits_acc_all_digits. apply digits_acc_pretty. Qed.

Lemma zfill_inj (w a b : nat) : Py.zfill w a = Py.zfill w b -> a = b.
Proof.
  intros H. apply (f_equal (fun s => Py.digits_acc s 0)) in H.
  rewrite !digits_acc_zfill in H. injection H as H. lia.
Qed.

(** The name [time] gives, followed by a non-digit, determines the date, the
    hour and the minute. *)
Lemma time_inj (c : ascii) (r r' : string) (a b : datetime) :
  Py.digit_of c = None ->
  time a +:+ String c r = time b +:+ String c r' -> a = b.
Proof.
  intros Hc. unfold time, date_str.
  rewrite !string_app_assoc, !app_cons_str, !app_nil_str.
  intros H.
  apply digits_split in H as [Hy H]; [| reflexivity | apply zfill_digits..].
  apply digits_split in H as [Hm H]; [| reflexivity | apply zfill_digits..].
  apply digits_split in H as [Hd H]; [| reflexivity | apply zfill_digits..].
  apply digits_split in H as [Hh H]; [| reflexivity | apply pretty_digits..].
  apply digits_split in H as [Hmi _]; [| exact Hc | apply pretty_digits..].
  apply zfill_inj in Hy, Hm, Hd. apply (inj pretty) in Hh, Hmi.
  destruct a, b. simpl in *. congruence.
Qed.

Section CheckpointNames.

Variable cfg : session.

(** X5. The checkpoint path always begins with the output directory, and
    two clock readings give the same path exactly when they agree on the
    date, the hour and the minute: saves in different minutes never
    overwrite each other. *)
Theorem checkpoint_path_inj (a b : datetime) :
  (exists rest, checkpoint_path cfg a = output_dir (args cfg) +:+ rest) /\
  (checkpoint_path cfg a = checkpoint_path cfg b <-> a = b).
Proof.
  unfold checkpoint_path, Py.path_join, CKPT. simpl Py.starts_with_sep.
  destruct ((String.length (output_dir (args cfg)) =? 0)%nat
            || Py.ends_with_sep (output_dir (args cfg))); (split; [eauto |]);
    (split; [| intros ->; reflexivity]); intros H.
  - do 3 apply (inj (String.append _)) in H.
    apply (time_inj "." "pth" "pth"); [reflexivity | exact H].
  - do 4 apply (inj (String.append _)) in H.
    apply (time_inj "." "pth" "pth"); [reflexivity | exact H].
Qed.

End CheckpointNames.

(** ** Runs that cannot complete *)

Lemma batches_nil_inv {A : Type} (n : nat) (l : list A) : batches n l = [] -> l = [].
Proof. destruct l as [| x l]; [reflexivity | discriminate]. Qed.

Section FailureFacts.

Context {tensor input logits : Type}.
Variable forward : bool -> @model tensor -> input -> logits.
Variable nll : logits -> nat -> Q.
Variable argmax : logits -> nat.
Variable sgd : Z -> nat -> @model tensor -> list (@sample input) -> @param tensor -> tensor.
Variable E : @env tensor input.

Lemma test_empty_shard (cfg : session) (w : @world tensor) :
  test_shard E = [] -> test forward nll argmax E cfg w = Raise ZeroDivisionError.
Proof. intros H. unfold test. rewrite H. reflexivity. Qed.

Lemma test_device_mismatch (cfg : session) (w : @world tensor) :
  same_device cfg = false -> exists e, test forward nll argmax E cfg w = Raise e.
Proof.
  intros Hdev. unfold test.
  destruct (batches (test_bs cfg) (test_shard E)) as [| b bs] eqn:Hb.
  - apply batches_nil_inv in Hb. rewrite Hb. simpl. eauto.
  - simpl. unfold val_criterion. rewrite Hdev. simpl. eauto.
Qed.

(** An epoch whose evaluation raises does not complete. *)
Lemma epoch_needs_test (cfg : session) (h : nat -> string -> Q -> Q) (i : nat) (e : Z)
    (w : @world tensor) :
  (forall w1, exists x, test forward nll argmax E cfg w1 = Raise x) ->
  exists x, answer h i (epoch_body forward nll argmax sgd E cfg e w) = Failed x.
Proof.
  intros Htest. unfold epoch_body.
  destruct (train_cases forward nll sgd E cfg e w) as [(w1 & t & Htrain & _) | [x Hx]].
  - rewrite Htrain, bind_unfold. simpl bind.
    destruct (Htest w1) as [x Hx]. rewrite Hx. simpl. eauto.
  - rewrite Hx. simpl. eauto.
Qed.

Lemma answer_bind_failed {A B : Type} (h : nat -> string -> Q -> Q) (p : prog A)
    (f : A -> prog B) :
  forall i x, answer h i p = Failed x -> answer h i (bind p f) = Failed x.
Proof.
  induction p as [a | e | n v k IH]; intros i x H; simpl in *.
  - discriminate.
  - injection H as ->. reflexivity.
  - apply IH. exact H.
Qed.

Lemma loops_need_test (cfg : session) (h : nat -> string -> Q -> Q) (i : nat)
    (w : @world tensor) :
  (forall w1, exists x, test forward nll argmax E cfg w1 = Raise x) ->
  exists x, answer h i (epoch_loops forward nll argmax sgd E cfg w) = Failed x.
Proof.
  intros Htest. unfold epoch_loops.
  destruct (epoch_needs_test cfg h i 1 w Htest) as [x Hx].
  exists x. rewrite bind_unfold. apply answer_bind_failed.
  change warm_up_epochs with [1]. simpl for_epochs. rewrite bind_unfold.
  apply answer_bind_failed. exact Hx.
Qed.

Lemma main_needs_test (h : nat -> string -> Q -> Q) (i : nat) (argv : list string) :
  (forall cfg, setup E argv = Ret cfg ->
               forall w1, exists x, test forward nll argmax E cfg w1 = Raise x) ->
  exists x, answer h i (main forward nll argmax sgd E argv) = Failed x.
Proof.
  intros Htest. unfold main. rewrite bind_unfold.
  destruct (setup_cases E argv) as [[cfg Hc] | [x Hx]].
  - rewrite Hc. simpl bind. apply loops_need_test. apply Htest. exact Hc.
  - rewrite Hx. simpl. eauto.
Qed.

(** X7. On a worker whose validation shard is empty [test] raises
    [ZeroDivisionError] (the division by [len(test_sampler)]), so the script
    never completes there: it ends with an exception whatever the command
    line and whatever the other workers answer. *)
Theorem empty_validation_shard (h : nat -> string -> Q -> Q) (i : nat)
    (argv : list string) (cfg : session) (w : @world tensor) :
  test_shard E = [] ->
  test forward nll argmax E cfg w = Raise ZeroDivisionError /\
  exists x, answer h i (main forward nll argmax sgd E argv) = Failed x.
Proof.
  intros Hempty. split; [apply test_empty_shard; exact Hempty |].
  apply main_needs_test. intros c _ w1. exists ZeroDivisionError.
  apply test_empty_shard. exact Hempty.
Qed.

(** X8. With [--no-cuda] the script never completes. Without a CUDA device
    the set-up stops at the class weights; with one, the network stays on the
    CPU while the loss weights are on the device, and the first evaluation
    raises (at its first batch, or at the division for an empty shard) unless
    training raised before. *)
Theorem no_cuda_never_completes (h : nat -> string -> Q -> Q) (i : nat)
    (argv : list string) (a : Args) :
  parse_args argv = Some a ->
  no_cuda a = true ->
  exists x, answer h i (main forward nll argmax sgd E argv) = Failed x.
Proof.
  intros Hp Hno. apply main_needs_test. intros cfg Hc w1.
  apply test_device_mismatch.
  apply setup_ret in Hc as (Hp' & _ & _ & Hw & _ & Hcuda & _).
  assert (Ha : args cfg = a) by congruence.
  unfold same_device. rewrite Hcuda, Hw, Ha, Hno. reflexivity.
Qed.

(** X9. With [--log-interval 0] and a non-empty training shard, [train]
    raises [ZeroDivisionError] at the modulo of its first batch (the loss
    being computable: weights on the device of the network, targets inside
    the weight vector). *)
Theorem log_interval_zero (cfg : session) (e : Z) (w : @world tensor) :
  log_interval (args cfg) = 0 ->
  same_device cfg = true ->
  train_shard E e <> [] ->
  Forall (fun s => is_Some (class_weights cfg !! snd s)) (train_shard E e) ->
  train forward nll sgd E cfg e w = Raise ZeroDivisionError.
Proof.
  intros Hli Hdev Hne Hin. unfold train, batches.
  destruct (train_shard E e) as [| s l] eqn:Hs; [congruence |].
  simpl length. cbn [chunks_aux]. cbn [train_loop].
  unfold train_batch at 1. unfold criterion. rewrite Hdev.
  destruct (mapM _ _) as [wl |] eqn:Hm.
  - rewrite bind_unfold. simpl bind. rewrite Hli. reflexivity.
  - exfalso. apply mapM_None in Hm. apply Exists_exists in Hm as (ot & Hot & Hnone).
    apply list_elem_of_fmap in Hot as (s' & -> & Hs').
    apply (subseteq_take (train_bs cfg) (s :: l)) in Hs'.
    rewrite Forall_forall in Hin. specialize (Hin s' Hs').
    unfold sample_loss in Hnone. simpl in Hnone.
    destruct Hin as [wt Hwt]. rewrite Hwt in Hnone. discriminate.
Qed.

End FailureFacts.

(** ** The cadence of [train] *)

Lemma length_chunks_aux {A : Type} (n : nat) :
  (0 < n)%nat -> forall fuel (l : list A), (length l <= fuel)%nat ->
  length (chunks_aux fuel n l) = ((length l + n - 1) / n)%nat.
Proof.
  intros Hn. induction fuel as [| fuel IH]; intros l Hlen.
  - destruct l; [| simpl in Hlen; lia]. simpl.
    symmetry. apply Nat.div_small. lia.
  - destruct l as [| x l].
    + simpl. symmetry. apply Nat.div_small. lia.
    + cbn [chunks_aux length]. rewrite IH by (rewrite length_drop; simpl in *; lia).
      rewrite length_drop. simpl length.
      destruct (le_lt_dec (S (length l)) n) as [Hle | Hgt].
      * replace (S (length l) - n)%nat with 0%nat by lia.
        rewrite (Nat.div_small (0 + n - 1) n) by lia.
        apply (Nat.div_unique _ n 1 (length l)); lia.
      * replace (S (length l) + n - 1)%nat with ((S (length l) - n + n - 1) + 1 * n)%nat by lia.
        rewrite Nat.div_add by lia. lia.
Qed.

Lemma length_batches {A : Type} (n : nat) (l : list A) :
  (0 < n)%nat -> length (batches n l) = ((length l + n - 1) / n)%nat.
Proof. intros Hn. apply length_chunks_aux; [exact Hn | lia]. Qed.

Section CadenceFacts.

Context {tensor input logits : Type}.
Variable forward : bool -> @model tensor -> input -> logits.
Variable nll : logits -> nat -> Q.
Variable sgd : Z -> nat -> @model tensor -> list (@sample input) -> @param tensor -> tensor.
Variable E : @env tensor input.
Variable cfg : session.

(** A returned batch: one step, and a print and a log when the index is a
    multiple of the interval. *)
Lemma train_batch_trace (e : Z) (nb i : nat) (b : list sample) (w w' : @world tensor) :
  train_batch forward nll sgd E cfg e nb i b w = Ret w' ->
  exists t,
    trace w' = trace w ++ t /\
    length (steps t) = 1%nat /\
    length (loss_logs t)
    = if decide (Z.of_nat i mod log_interval (args cfg) = 0) then 1%nat else 0%nat.
Proof.
  unfold train_batch.
  destruct (criterion_cases nll cfg
              ((fun s => (forward (training w) (net w) (fst s), snd s)) <$> b))
    as [[q Hq] | [x Hx]].
  2:{ rewrite Hx. discriminate. }
  rewrite Hq, bind_unfold. simpl bind.
  destruct (log_interval (args cfg) =? 0); [discriminate |].
  destruct (Z.eqb_spec (Z.of_nat i mod log_interval (args cfg)) 0) as [Hz | Hz];
    intros [= <-]; simpl; rewrite <- ?app_assoc; eexists; (split; [reflexivity |]);
    (split; [reflexivity |]);
    destruct (decide (Z.of_nat i mod log_interval (args cfg) = 0)); try reflexivity;
    contradiction.
Qed.

Lemma train_loop_cadence (e : Z) (nb : nat) (bs : list (list sample)) :
  forall (i : nat) (w w' : @world tensor),
  train_loop forward nll sgd E cfg e nb i bs w = Ret w' ->
  exists t,
    trace w' = trace w ++ t /\
    length (steps t) = length bs /\
    length (loss_logs t)
    = length (filter (fun j => Z.of_nat j mod log_interval (args cfg) = 0)
                     (seq i (length bs))).
Proof.
  induction bs as [| b bs IH]; intros i w w'; simpl train_loop.
  - intros [= <-]. exists []. rewrite app_nil_r. repeat split.
  - destruct (train_batch_cases forward nll sgd E cfg e nb i b w)
      as [(w1 & t0 & Hb & _) | [x Hx]].
    2:{ rewrite Hx. discriminate. }
    rewrite Hb, bind_unfold. simpl bind. intros Hrest.
    apply train_batch_trace in Hb as (t1 & Ht1 & Hs1 & Hl1).
    apply IH in Hrest as (t2 & Ht2 & Hs2 & Hl2).
    exists (t1 ++ t2).
    split; [rewrite Ht2, Ht1, app_assoc; reflexivity |].
    unfold steps, loss_logs in *. rewrite !omap_app, !length_app, Hs1, Hs2, Hl1, Hl2.
    split; [reflexivity |].
    simpl length. cbn [seq]. rewrite filter_cons.
    destruct (decide (Z.of_nat i mod log_interval (args cfg) = 0)); reflexivity.
Qed.

(** X10. A returned [train] has taken exactly one optimizer step per batch,
    that is the shard size divided by the batch size, rounded up, and has
    logged the loss exactly for the batch indexes that are multiples of the
    logging interval. *)
Theorem train_cadence (e : Z) (w w' : @world tensor) :
  (0 < train_bs cfg)%nat ->
  train forward nll sgd E cfg e w = Ret w' ->
  exists t,
    trace w' = trace w ++ ESetEpoch e :: t /\
    length (steps t) = ((length (train_shard E e) + train_bs cfg - 1) / train_bs cfg)%nat /\
    length (loss_logs t)
    = length (filter (fun j => Z.of_nat j mod log_interval (args cfg) = 0)
                     (seq 0 (length (steps t)))).
Proof.
  intros Hbs. unfold train. intros Hrun.
  apply train_loop_cadence in Hrun as (t & Ht & Hs & Hl).
  exists t. simpl in Ht.
  split; [rewrite Ht, <- app_assoc; reflexivity |].
  rewrite Hs, Hl, length_batches by exact Hbs. split; reflexivity.
Qed.

End CadenceFacts.

(** ** The command line *)





(** ** Collectives *)



Section SingleWorker.

Context {tensor input logits : Type}.
Variable forward : bool -> @model tensor -> input -> logits.
Variable nll : logits -> nat -> Q.
Variable argmax : logits -> nat.
Variable E : @env tensor input.
Variable cfg : session.


End SingleWorker.

Section EvaluationEffects.

Context {tensor input logits : Type}.
Variable forward : bool -> @model tensor -> input -> logits.
Variable nll : logits -> nat -> Q.
Variable argmax : logits -> nat.
Variable E : @env tensor input.
Variable cfg : session.

(** X15. A completed [test] leaves the model in eval mode and changes
    nothing else but the log: the parameters and their flags, the files, the
    clock and the sampler's epoch are as before, and the log grows by the two
    metrics (and the summary line on rank 0). *)
Theorem test_effects (h : nat -> string -> Q -> Q) (i : nat) (w w' : @world tensor) :
  answer h i (test forward nll argmax E cfg w) = Done w' ->
  net w' = net w /\ fs w' = fs w /\ ticks w' = ticks w /\
  sampler_epoch w' = sampler_epoch w /\ training w' = false /\
  exists l a,
    trace w' = trace w ++ [ELog "val_loss" l; ELog "val_acc" a]
                 ++ (if (hvd_rank E =? 0)%nat then [EPrintTest l (100 * a)%Q] else []).
Proof.
  destruct (test_shape forward nll argmax E cfg w) as [(l & a & Ht) | [e He]].
  2:{ rewrite He. discriminate. }
  rewrite Ht. simpl. intros [= <-].
  destruct (report_net E (h i "avg_loss" l) (h (S i) "avg_accuracy" a) (set_training false w))
    as (Hn & Hf & Hk).
  rewrite Hn, Hf, Hk, report_trace.
  repeat split; try (unfold report; destruct (hvd_rank E =? 0)%nat; reflexivity).
  eauto.
Qed.

End EvaluationEffects.

(** ** Examples *)

Lemma empty_validation_shard_witness :
  test Demo.forward Demo.nll Demo.argmax Demo.E_no_val (Demo.cfg 1) (init_world Demo.E_no_val)
  = Raise ZeroDivisionError.
Proof.
  apply (empty_validation_shard Demo.forward Demo.nll Demo.argmax Demo.sgd Demo.E_no_val
           (fun _ _ v => v) 0%nat Demo.argv2 (Demo.cfg 1) (init_world Demo.E_no_val)).
  reflexivity.
Defined.

Lemma no_cuda_never_completes_witness :
  exists x,
    answer (fun _ _ v => v) 0
      (main Demo.forward Demo.nll Demo.argmax Demo.sgd (Demo.E 0 1 true Demo.at_minute)
         ["--data-folder"; "/mnt"; "--no-cuda"]) = Failed x.
Proof.
  apply (no_cuda_never_completes Demo.forward Demo.nll Demo.argmax Demo.sgd
           (Demo.E 0 1 true Demo.at_minute) (fun _ _ v => v) 0%nat
           ["--data-folder"; "/mnt"; "--no-cuda"]
           (set_no_cuda (set_data_folder "/mnt" default_args))).
  - reflexivity.
  - reflexivity.
Defined.

Lemma log_interval_zero_witness :
  train Demo.forward Demo.nll Demo.sgd (Demo.E 0 1 true Demo.at_minute) Demo.cfg_log0 1
    (init_world (Demo.E 0 1 true Demo.at_minute))
  = Raise ZeroDivisionError.
Proof.
  apply (log_interval_zero Demo.forward Demo.nll Demo.sgd (Demo.E 0 1 true Demo.at_minute)
           Demo.cfg_log0 1 (init_world (Demo.E 0 1 true Demo.at_minute))).
  - reflexivity.
  - reflexivity.
  - discriminate.
  - repeat constructor; eexists; reflexivity.
Defined.

Lemma train_cadence_witness :
  exists w' t,
    train Demo.forward Demo.nll Demo.sgd (Demo.E 0 1 true Demo.at_minute) (Demo.cfg 1) 1
      (init_world (Demo.E 0 1 true Demo.at_minute)) = Ret w' /\
    trace w' = ESetEpoch 1 :: t /\ length (steps t) = 1%nat.
Proof.
  eexists.
  edestruct (train_cadence Demo.forward Demo.nll Demo.sgd (Demo.E 0 1 true Demo.at_minute)
               (Demo.cfg 1) 1 (init_world (Demo.E 0 1 true Demo.at_minute)))
    as (t & Ht & Hs & _).
  - simpl. lia.
  - vm_compute. reflexivity.
  - exists t. split; [reflexivity |]. split; [exact Ht | exact Hs].
Defined.


Lemma test_effects_witness :
  exists w',
    answer (fun _ _ v => v) 0
      (test Demo.forward Demo.nll Demo.argmax (Demo.E 0 1 true Demo.at_minute)
         (Demo.cfg 1) (init_world (Demo.E 0 1 true Demo.at_minute))) = Done w' /\
    net w' = Demo.pretrained /\ training w' = false.
Proof.
  eexists.
  edestruct (test_effects Demo.forward Demo.nll Demo.argmax
               (Demo.E 0 1 true Demo.at_minute) (Demo.cfg 1)
               (fun _ _ v => v) 0%nat (init_world (Demo.E 0 1 true Demo.at_minute)))
    as (Hn & _ & _ & _ & Hm & _).
  - vm_compute. reflexivity.
  - split; [reflexivity |]. split; [exact Hn | exact Hm].
Defined.
